(** * MP3Tagger: a shallow embedding of [mp3_tagger.py] / [app.py]

    The class [MP3Tagger] maps six logical tag names to ID3 frame keys,
    reads and writes the frames of an in-memory tag object, and saves the
    tags into a copy of the source file whose name is derived from the
    title.  Python values are modelled as follows:

    - [str] is a sequence of Unicode code points ([list N]);
    - the tag object [self.tags] (a [mutagen.id3.ID3], used as a dict from
      frame key to frame) is a [gmap str Frame];
    - the file system is a [gmap str File] keyed by the path string: it
      holds regular files only, and two different strings name two
      different files (no links, no relative aliases of one file);
    - a method is a computation in a state-and-exception monad over the
      pair of the object and the file system.

    The command-line program of [mp3_tagger.py] (module [Cli]) and the
    edit page of [app.py] (module [Web]) are modelled on top of the
    class. *)

From Stdlib Require Import NArith String Ascii.
From stdpp Require Import base decidable option list countable gmap fin_maps.

Local Open Scope N_scope.
Local Open Scope list_scope.

(** ** Python strings *)

Module PyStr.

(** A Python [str]: its code points, in order. *)
Abbreviation str := (list N).

(** An ASCII literal of the source, character by character. *)
Fixpoint lit (s : string) : str :=
  match s with
  | EmptyString => []
  | String a s' => N_of_ascii a :: lit s'
  end.

#[global] Arguments lit : simpl never.

(** [bool(s)] for a string: non-empty. *)
Definition truthy (s : str) : bool :=
  match s with [] => false | _ :: _ => true end.

(** [c.isspace()]: the code points [str.strip()] removes. *)
Definition isspace (c : N) : bool :=
  ((0x09 <=? c) && (c <=? 0x0D)) || ((0x1C <=? c) && (c <=? 0x20))
  || (c =? 0x85) || (c =? 0xA0) || (c =? 0x1680)
  || ((0x2000 <=? c) && (c <=? 0x200A))
  || (c =? 0x2028) || (c =? 0x2029) || (c =? 0x202F) || (c =? 0x205F)
  || (c =? 0x3000).

(** Removing the leading, or the trailing, code points that satisfy
    [P]. *)
Fixpoint lstrip_if (P : N -> bool) (s : str) : str :=
  match s with
  | [] => []
  | c :: s' => if P c then lstrip_if P s' else s
  end.

Definition rstrip_if (P : N -> bool) (s : str) : str :=
  rev (lstrip_if P (rev s)).

(** [s.strip()] *)
Definition strip (s : str) : str := rstrip_if isspace (lstrip_if isspace s).

(** Lower-casing of one code point, as [str.lower()] does it for ASCII,
    for Latin-1, and for the two code points outside ASCII whose lower
    case contains an ASCII letter (U+0130 and the Kelvin sign U+212A).
    Every other cased code point has a lower case outside ASCII and is
    left as it is here: the outcome of [endswith('.mp3')] is the same. *)
Definition lower_cp (c : N) : str :=
  if (0x41 <=? c) && (c <=? 0x5A) then [c + 32]
  else if (0xC0 <=? c) && (c <=? 0xDE) && negb (c =? 0xD7) then [c + 32]
  else if c =? 0x130 then [0x69; 0x307]
  else if c =? 0x212A then [0x6B]
  else [c].

(** [s.lower()] *)
Definition lower (s : str) : str := flat_map lower_cp s.

(** [s.endswith(suf)] *)
Definition endswith (s suf : str) : bool := bool_decide (suf `suffix_of` s).

(** [s.startswith(pre)] *)
Definition startswith (s pre : str) : bool := bool_decide (pre `prefix_of` s).

(** [s.split(sep)] for a one-character separator. *)
Fixpoint split (sep : N) (s : str) : list str :=
  match s with
  | [] => [[]]
  | c :: s' =>
      if c =? sep then [] :: split sep s'
      else match split sep s' with
           | [] => [[c]]
           | w :: ws => (c :: w) :: ws
           end
  end.

(** [sep.join(l)] *)
Fixpoint join (sep : str) (l : list str) : str :=
  match l with
  | [] => []
  | x :: rest =>
      match rest with
      | [] => x
      | _ :: _ => x ++ sep ++ join sep rest
      end
  end.

(** The UTF-8 encoding of one code point, and of a string: the bytes of
    a file name on disk. *)
Definition utf8_cp (c : N) : list N :=
  if c <? 0x80 then [c]
  else if c <? 0x800 then [0xC0 + c / 64; 0x80 + c mod 64]
  else if c <? 0x10000 then
    [0xE0 + c / 4096; 0x80 + (c / 64) mod 64; 0x80 + c mod 64]
  else [0xF0 + c / 262144; 0x80 + (c / 4096) mod 64;
        0x80 + (c / 64) mod 64; 0x80 + c mod 64].

Definition utf8 (s : str) : list N := flat_map utf8_cp s.

(** The bytes of a string constant, taken as they are. *)
Definition bytes_of (s : string) : list N := lit s.

End PyStr.
Export PyStr.

(** ** [os.path] (POSIX flavour) *)

Module PosixPath.

Definition sep : N := 0x2F.
#[global] Arguments sep : simpl never.

(** [os.path.isabs(p)] *)
Definition isabs (p : str) : bool :=
  match p with c :: _ => c =? sep | [] => false end.

(** [os.path.join(a, b)] *)
Definition join (a b : str) : str :=
  if isabs b then b
  else if negb (truthy a) || endswith a [sep] then a ++ b
  else a ++ [sep] ++ b.

(** The part of [p] after its last separator: [p[p.rfind('/') + 1:]]. *)
Fixpoint after_last_sep (p : str) : str :=
  match p with
  | [] => []
  | c :: p' =>
      if existsb (N.eqb sep) p' then after_last_sep p'
      else if c =? sep then p' else p
  end.

(** [os.path.basename(p)] *)
Definition basename (p : str) : str := after_last_sep p.

(** [s.rstrip('/')] *)
Definition rstrip_sep (s : str) : str := rstrip_if (N.eqb sep) s.

(** [os.path.dirname(p)] *)
Definition dirname (p : str) : str :=
  let head := take (length p - length (after_last_sep p)) p in
  if truthy head && negb (forallb (N.eqb sep) head)
  then rstrip_sep head else head.

End PosixPath.

(** ** The tag library: [mutagen.id3]

    The program uses the library as a black box.  What it relies on: a
    frame is built from a class, a text encoding and a text; [str(frame)]
    is the text; an [ID3] object is a dict from frame key to frame; a file
    carries a tag block, which [ID3(path)] reads and [tags.save(path)]
    writes. *)

Module Mutagen.

(** The frame classes the program imports and builds. *)
Inductive FrameClass := TIT2 | TPE1 | TEXT | TCOM | TCOP | COMM.

(** [cls.__name__] *)
Definition __name__ (cls : FrameClass) : str :=
  match cls with
  | TIT2 => lit "TIT2"
  | TPE1 => lit "TPE1"
  | TEXT => lit "TEXT"
  | TCOM => lit "TCOM"
  | TCOP => lit "TCOP"
  | COMM => lit "COMM"
  end.

(** A text frame holds a list of strings; a comment frame has a language
    and a description besides.  Frames of other kinds, which a file may
    carry, are never looked at by the program. *)
Inductive Frame :=
| TextFrame (FrameID : str) (encoding : N) (text : list str)
| CommFrame (encoding : N) (lang desc : str) (text : list str).

#[global] Instance Frame_eq_dec : EqDecision Frame.
Proof. solve_decision. Defined.

(** A text given as one string is split at NUL. *)
Definition text_of (value : str) : list str := split 0 value.

(** [cls(encoding=e, text=value)] for a text frame class. *)
Definition new_text_frame (cls : FrameClass) (e : N) (value : str) : Frame :=
  TextFrame (__name__ cls) e (text_of value).

(** [COMM(encoding=e, lang=l, desc=d, text=value)] *)
Definition new_COMM (e : N) (l d : str) (value : str) : Frame :=
  CommFrame e l d (text_of value).

(** [str(frame)]: the texts joined by NUL. *)
Definition frame_str (f : Frame) : str :=
  match f with
  | TextFrame _ _ text => PyStr.join [0] text
  | CommFrame _ _ _ text => PyStr.join [0] text
  end.

(** The tag block of a file on disk: none, one that does not parse, or
    a set of frames. *)
Inductive TagBlock :=
| NoHeader
| Junk
| Block (frames : gmap str Frame).

(** A file: its audio payload and its tag block. *)
Record File := { audio : list N; id3 : TagBlock }.

End Mutagen.
Export Mutagen.

(** ** Exceptions, state and the method monad *)

Inductive exn :=
| FileNotFoundError (msg : str)
| ValueError (msg : str)
| ID3Error
| MutagenError
| SameFileError.

#[global] Instance exn_eq_dec : EqDecision exn.
Proof. solve_decision. Defined.

(** The object: [self.file_path] and [self.tags]. *)
Record MP3Tagger := { file_path : str; tags : gmap str Frame }.

(** What a method runs in: the object and the file system. *)
Record World := { self : MP3Tagger; disk : gmap str File }.

(** A computation returns a value or raises; either way it leaves a
    world behind. *)
Definition M (A : Type) : Type := World -> (exn + A) * World.

Definition ret {A} (a : A) : M A := fun w => (inr a, w).
Definition raise {A} (e : exn) : M A := fun w => (inl e, w).
Definition bind {A B} (m : M A) (k : A -> M B) : M B :=
  fun w => match m w with
           | (inr a, w') => k a w'
           | (inl e, w') => (inl e, w')
           end.

#[global] Instance M_ret : MRet M := @ret.
#[global] Instance M_bind : MBind M := fun A B k m => bind m k.

(** Reading and writing [self.tags]. *)
Definition get_tags : M (gmap str Frame) := fun w => (inr (tags (self w)), w).
Definition put_tags (t : gmap str Frame) : M unit :=
  fun w => (inr tt, {| self := {| file_path := file_path (self w); tags := t |};
                       disk := disk w |}).
Definition get_file_path : M str := fun w => (inr (file_path (self w)), w).

(** [os.path.exists(path)] *)
Definition exists_ (d : gmap str File) (path : str) : bool :=
  bool_decide (is_Some (d !! path)).

(** [ID3(path)]: the frames of the file's tag block; [ID3Error] when the
    file has no tag block or one that does not parse. *)
Definition ID3_load (d : gmap str File) (path : str) : exn + gmap str Frame :=
  match d !! path with
  | None => inl MutagenError
  | Some f =>
      match id3 f with
      | Block frames => inr frames
      | NoHeader | Junk => inl ID3Error
      end
  end.

(** [shutil.copy2(src, dst)] *)
Definition shutil_copy2 (src dst : str) : M unit :=
  fun w => match disk w !! src with
           | None => (inl (FileNotFoundError src), w)
           | Some f =>
               if bool_decide (src = dst) then (inl SameFileError, w)
               else (inr tt, {| self := self w; disk := <[dst := f]> (disk w) |})
           end.

(** [tags.save(path)]: the frames replace the tag block of the file. *)
Definition ID3_save (t : gmap str Frame) (path : str) : M unit :=
  fun w => match disk w !! path with
           | None => (inl MutagenError, w)
           | Some f =>
               (inr tt, {| self := self w;
                           disk := <[path := {| audio := audio f; id3 := Block t |}]> (disk w) |})
           end.

(** ** The class [MP3Tagger] *)

(** A dict literal of the source: its items in order. *)
Definition dict (V : Type) : Type := list (str * V).

(** [d.get(k)]; [k in d] is [is_Some] of it. *)
Fixpoint dict_get {V} (d : dict V) (k : str) : option V :=
  match d with
  | [] => None
  | (k', v) :: d' => if bool_decide (k' = k) then Some v else dict_get d' k
  end.

(** [bool(x)] for an optional string argument ([None] or a [str]). *)
Definition truthy_opt (x : option str) : bool :=
  match x with Some s => truthy s | None => false end.

(** [_load_tags]: the frames of the file; an empty tag when the library
    raises its [ID3Error]. *)
Definition _load_tags (d : gmap str File) (path : str) : exn + gmap str Frame :=
  match ID3_load d path with
  | inl ID3Error => inr ∅
  | r => r
  end.

(** [MP3Tagger(file_path)] *)
Definition __init__ (d : gmap str File) (file_path : str) : exn + MP3Tagger :=
  if negb (exists_ d file_path)
  then inl (FileNotFoundError (lit "File not found: " ++ file_path))
  else if negb (endswith (lower file_path) (lit ".mp3"))
  then inl (ValueError (lit "File must be an MP3 file"))
  else match _load_tags d file_path with
       | inl e => inl e
       | inr t => inr {| file_path := file_path; tags := t |}
       end.

(** The two [tag_map] literals. *)
Definition get_tag_map : dict str :=
  [ (lit "title", lit "TIT2");
    (lit "artist", lit "TPE1");
    (lit "lyricist", lit "TEXT");
    (lit "composer", lit "TCOM");
    (lit "copyright", lit "TCOP");
    (lit "comment", lit "COMM::eng") ].

Definition set_tag_map : dict FrameClass :=
  [ (lit "title", TIT2);
    (lit "artist", TPE1);
    (lit "lyricist", TEXT);
    (lit "composer", TCOM);
    (lit "copyright", TCOP);
    (lit "comment", COMM) ].

Definition get_tag (tag_name : str) : M str :=
  match dict_get get_tag_map tag_name with
  | None => raise (ValueError (lit "Unknown tag: " ++ tag_name))
  | Some frame_id =>
      t ← get_tags;
      match t !! frame_id with
      | Some f => mret (frame_str f)
      | None => mret []
      end
  end.

Definition set_tag (tag_name value : str) : M unit :=
  match dict_get set_tag_map tag_name with
  | None => raise (ValueError (lit "Unknown tag: " ++ tag_name))
  | Some frame_class =>
      t ← get_tags;
      if truthy (strip value) then
        if bool_decide (tag_name = lit "comment")
        then put_tags (<[lit "COMM::eng" := new_COMM 3 (lit "eng") [] value]> t)
        else put_tags (<[__name__ frame_class := new_text_frame frame_class 3 value]> t)
      else
        let frame_id :=
          if bool_decide (tag_name = lit "comment")
          then lit "COMM::eng" else __name__ frame_class in
        if bool_decide (is_Some (t !! frame_id))
        then put_tags (delete frame_id t)
        else mret tt
  end.


(** The constant part of the new file's name: a space, the copyright
    sign U+00A9 followed by the variation selector U+FE0F, and the
    holder. *)
Definition name_suffix : str :=
  lit " " ++ [0xA9; 0xFE0F] ++ lit " Stiftelsen Skjulte Skatter Forlag.mp3".

(** [save_as_new_file] of [mp3_tagger.py]. *)
Definition save_as_new_file (output_directory : option str) : M str :=
  title ← get_tag (lit "title");
  let title := if negb (truthy title) then lit "Untitled" else title in
  let new_filename := title ++ name_suffix in
  file_path ← get_file_path;
  let output_path :=
    if truthy_opt output_directory
    then PosixPath.join (default [] output_directory) new_filename
    else PosixPath.join (PosixPath.dirname file_path) new_filename in
  shutil_copy2 file_path output_path;;
  t ← get_tags;
  ID3_save t output_path;;
  mret output_path.

Definition get_all_tags : M (dict str) :=
  title ← get_tag (lit "title");
  artist ← get_tag (lit "artist");
  lyricist ← get_tag (lit "lyricist");
  composer ← get_tag (lit "composer");
  copyright ← get_tag (lit "copyright");
  comment ← get_tag (lit "comment");
  mret [ (lit "title", title);
         (lit "artist", artist);
         (lit "lyricist", lyricist);
         (lit "composer", composer);
         (lit "copyright", copyright);
         (lit "comment", comment) ].

(** The copy of the class in [app.py] differs in one method. *)
Module App.

(** [save_as_new_file] of [app.py]: the directory is that of the path
    given. *)
Definition save_as_new_file (output_path : str) : M str :=
  title ← get_tag (lit "title");
  let title := if negb (truthy title) then lit "Untitled" else title in
  let new_filename := title ++ name_suffix in
  let output_dir := PosixPath.dirname output_path in
  let final_path := PosixPath.join output_dir new_filename in
  file_path ← get_file_path;
  shutil_copy2 file_path final_path;;
  t ← get_tags;
  ID3_save t final_path;;
  mret final_path.

End App.

(** The six logical names. *)
Definition tag_names : list str :=
  [ lit "title"; lit "artist"; lit "lyricist"; lit "composer";
    lit "copyright"; lit "comment" ].

(** The frame [set_tag] stores for a name whose class is [cls]. *)
Definition stored_frame (tag_name : str) (cls : FrameClass) (value : str) : Frame :=
  if bool_decide (tag_name = lit "comment")
  then new_COMM 3 (lit "eng") [] value
  else new_text_frame cls 3 value.

(** "The extension is, case-insensitively, [.mp3]": the last four code
    points are a dot, an m, a p and a 3, the letters in either case. *)
Definition has_mp3_extension (path : str) : bool :=
  match rev path with
  | c3 :: cp :: cm :: cdot :: _ =>
      (cdot =? 0x2E) && ((cm =? 0x6D) || (cm =? 0x4D))
      && ((cp =? 0x70) || (cp =? 0x50)) && (c3 =? 0x33)
  | _ => false
  end.

(** The frames a fresh [MP3Tagger] would read back from a file. *)
Definition frames_on_disk (d : gmap str File) (path : str) : option (gmap str Frame) :=
  match __init__ d path with
  | inr t => Some (tags t)
  | inl _ => None
  end.

(** The title [save_as_new_file] reads, the file name it builds from it
    and the directory it joins the name to. *)
Definition title_of (w : World) : str :=
  from_option frame_str [] (tags (self w) !! lit "TIT2").

Definition filename_of (w : World) : str :=
  (if truthy (title_of w) then title_of w else lit "Untitled") ++ name_suffix.

Definition target_dir (output_directory : option str) (w : World) : str :=
  if truthy_opt output_directory
  then default [] output_directory
  else PosixPath.dirname (file_path (self w)).

(** The world after a file with the frames in memory was written at
    [path], next to a source file [f]. *)
Definition with_new_file (w : World) (path : str) (f : File) : World :=
  {| self := self w;
     disk := <[path := {| audio := audio f; id3 := Block (tags (self w)) |}]> (disk w) |}.

(** The file name the specification gives for the title [My Song], byte
    for byte, and the one for an empty title. *)
Definition spec_name_my_song : list N :=
  bytes_of "My Song © Stiftelsen Skjulte Skatter Forlag.mp3".

Definition spec_name_untitled : list N :=
  bytes_of "Untitled © Stiftelsen Skjulte Skatter Forlag.mp3".

(** The file names the code gives, byte for byte: the copyright sign is
    followed by the three bytes of U+FE0F. *)
Definition code_name_my_song : list N :=
  bytes_of "My Song " ++ [0xC2; 0xA9; 0xEF; 0xB8; 0x8F]
    ++ bytes_of " Stiftelsen Skjulte Skatter Forlag.mp3".

Definition code_name_untitled : list N :=
  bytes_of "Untitled " ++ [0xC2; 0xA9; 0xEF; 0xB8; 0x8F]
    ++ bytes_of " Stiftelsen Skjulte Skatter Forlag.mp3".

(** A call of either [save_as_new_file] that returned [p], with [dir] the
    directory the method joins the name to. *)
Definition saved_as (dir : str) (w : World) (p : str) (w' : World) : Prop :=
  (∃ output_directory,
     dir = target_dir output_directory w ∧
     save_as_new_file output_directory w = (inr p, w')) ∨
  (∃ output_path,
     dir = PosixPath.dirname output_path ∧
     App.save_as_new_file output_path w = (inr p, w')).

(** ** Sample worlds *)

(** A directory-less file [song.mp3] without a tag block, and the object
    built from it. *)
Definition untagged_disk : gmap str File :=
  {[ lit "song.mp3" := {| audio := [0xFF; 0xFB; 0x90]; id3 := NoHeader |} ]}.

Definition untagged : World :=
  {| self := {| file_path := lit "song.mp3"; tags := ∅ |};
     disk := untagged_disk |}.

(** A file whose title frame holds two spaces, as a tag block written by
    another program may. *)
Definition blank_title_tags : gmap str Frame :=
  {[ lit "TIT2" := TextFrame (lit "TIT2") 3 [lit "  "] ]}.

Definition blank_title : World :=
  {| self := {| file_path := lit "/music/in.mp3"; tags := blank_title_tags |};
     disk := {[ lit "/music/in.mp3" :=
                  {| audio := [0xFF; 0xFB]; id3 := Block blank_title_tags |} ]} |}.

(** A file whose title frame holds [My Song]. *)
Definition my_song_tags : gmap str Frame :=
  {[ lit "TIT2" := TextFrame (lit "TIT2") 3 [lit "My Song"] ]}.

Definition my_song : World :=
  {| self := {| file_path := lit "/music/in.mp3"; tags := my_song_tags |};
     disk := {[ lit "/music/in.mp3" :=
                  {| audio := [0xFF; 0xFB]; id3 := Block my_song_tags |} ]} |}.

(** ** The command-line program of [mp3_tagger.py]

    The functions below the class print to the terminal and read lines
    from it.  The terminal is a list of lines still to be read and a list
    of what was written; a function runs on the object, the disk and the
    terminal, and either returns or is ended by an exception. *)

Module Cli.

(** What was written: the argument of a [print] call, a [print] of a
    prefix followed by the text of a caught exception, or the prompt of an
    [input] call. *)
Inductive out :=
| Print (s : str)
| PrintError (prefix : str) (e : exn)
| Prompt (s : str).

(** What ends a run early: an exception of the class, the end of the
    input, [sys.exit], or the loop bound of the model. *)
Inductive signal :=
| Raised (e : exn)
| EOFError
| SystemExit (code : N)
| OutOfFuel.

Record Env := { world : World; stdin : list str; stdout : list out }.

Definition IO (A : Type) : Type := Env -> (signal + A) * Env.

Definition io_ret {A} (a : A) : IO A := fun env => (inr a, env).
Definition io_raise {A} (s : signal) : IO A := fun env => (inl s, env).
Definition io_bind {A B} (m : IO A) (k : A -> IO B) : IO B :=
  fun env => match m env with
             | (inr a, env') => k a env'
             | (inl s, env') => (inl s, env')
             end.

#[global] Instance IO_ret : MRet IO := @io_ret.
#[global] Instance IO_bind : MBind IO := fun A B k m => io_bind m k.

(** A method call on the object. *)
Definition call {A} (m : M A) : IO A :=
  fun env =>
    let (r, w') := m (world env) in
    (match r with inl e => inl (Raised e) | inr a => inr a end,
     {| world := w'; stdin := stdin env; stdout := stdout env |}).

Definition write (o : out) : IO unit :=
  fun env => (inr tt, {| world := world env; stdin := stdin env;
                         stdout := stdout env ++ [o] |}).

(** [print(s)] *)
Definition print (s : str) : IO unit := write (Print s).

(** [input(prompt)] *)
Definition input (prompt : str) : IO str :=
  fun env =>
    let env' := {| world := world env; stdin := stdin env;
                   stdout := stdout env ++ [Prompt prompt] |} in
    match stdin env with
    | [] => (inl EOFError, env')
    | line :: rest =>
        (inr line, {| world := world env; stdin := rest; stdout := stdout env' |})
    end.

(** [try: body  except Exception as e: handler(e)] around method calls. *)
Definition try_except (body : IO unit) (handler : exn -> IO unit) : IO unit :=
  fun env => match body env with
             | (inl (Raised e), env') => handler e env'
             | r => r
             end.

(** [for x in l: f(x)] *)
Fixpoint for_each {A} (l : list A) (f : A -> IO unit) : IO unit :=
  match l with
  | [] => mret tt
  | x :: l' => f x;; for_each l' f
  end.

(** [a or b] on strings. *)
Definition py_or (a b : str) : str := if truthy a then a else b.

Definition print_banner : IO unit :=
  print (repeat 0x3D 50);;
  print (lit "         MP3 Tag Editor");;
  print (repeat 0x3D 50);;
  print [].

Definition display_current_tags : IO unit :=
  file_path ← call get_file_path;
  print (lit "File: " ++ PosixPath.basename file_path);;
  print (repeat 0x2D 40);;
  tags ← call get_all_tags;
  for_each tags (fun _ => print (lit "12"));;
  print [].

Definition choices : list str :=
  [lit "1"; lit "2"; lit "3"; lit "4"; lit "5"; lit "6"; lit "7"; lit "8"].

(** The [while True] of [get_user_choice]. *)
Fixpoint get_user_choice_loop (fuel : nat) : IO str :=
  match fuel with
  | O => io_raise OutOfFuel
  | S fuel' =>
      line ← input (lit "Enter your choice (1-8): ");
      let choice := strip line in
      if bool_decide (choice ∈ choices) then mret choice
      else print (lit "Invalid choice. Please enter 1-8.");;
           get_user_choice_loop fuel'
  end.

Definition get_user_choice (fuel : nat) : IO str :=
  print (lit "Choose an option:");;
  print (lit "1. Edit Title");;
  print (lit "2. Edit Artist");;
  print (lit "3. Edit Lyricist");;
  print (lit "4. Edit Composer");;
  print (lit "5. Edit Copyright");;
  print (lit "6. Copy Song Info");;
  print (lit "7. Save as New File");;
  print (lit "8. Exit");;
  print [];;
  get_user_choice_loop fuel.

Definition edit_tag (tag_name display_name : str) : IO unit :=
  current_value ← call (get_tag tag_name);
  print (lit "Current " ++ display_name ++ lit ": " ++ current_value);;
  line ← input (lit "Enter new " ++ display_name ++ lit " (leave empty to remove): ");
  let new_value := strip line in
  call (set_tag tag_name new_value);;
  (if truthy new_value
   then print (display_name ++ lit " updated to: " ++ new_value)
   else print (display_name ++ lit " removed"));;
  print [].

(** The four fields of the song info, each with its fallback. *)
Definition song_fields : M (str * str * str * str) :=
  title ← get_tag (lit "title");
  let title := py_or (strip title) (lit "Untitled") in
  artist ← get_tag (lit "artist");
  let artist := py_or (strip artist) (lit "Unknown Artist") in
  lyricist ← get_tag (lit "lyricist");
  let lyricist := py_or (strip lyricist) (lit "Unknown") in
  composer ← get_tag (lit "composer");
  let composer := py_or (strip composer) (lit "Unknown") in
  mret (title, artist, lyricist, composer).

(** The f-string [song_info]. *)
Definition song_info (title artist lyricist composer : str) : str :=
  [0x1F3B5] ++ lit ": " ++ artist ++ lit " - " ++ title ++ [0x0A]
  ++ [0x270D; 0xFE0F] ++ lit ": " ++ lyricist ++ [0x0A]
  ++ [0x1F3BC] ++ lit ": " ++ composer ++ [0x0A]
  ++ [0x0A]
  ++ lit "Music and Lyrics " ++ [0xA9]
  ++ lit " : Stiftelsen Skjulte Skatters Forlag" ++ [0x0A]
  ++ [0x1F517] ++ lit ": hiddentreasures.org".

(** The branch [choice == '6'] of [main]. *)
Definition copy_song_info : IO unit :=
  '(title, artist, lyricist, composer) ← call song_fields;
  print ([0x0A] ++ repeat 0x3D 50);;
  print (lit "SONG INFO (Copy and paste this text):");;
  print (repeat 0x3D 50);;
  print (song_info title artist lyricist composer);;
  print (repeat 0x3D 50 ++ [0x0A]).

Definition default_copyright : str :=
  lit "Copyright " ++ [0xA9]
  ++ lit " Stiftelsen Skjulte Skatters Forlag. All Rights Reserved.".

Definition cli_comment : str := lit "www.activechristianity.org".

(** The branch [choice == '7'] of [main]. *)
Definition save_new_file : IO unit :=
  try_except
    (current_copyright ← call (get_tag (lit "copyright"));
     (if negb (truthy (strip current_copyright))
      then call (set_tag (lit "copyright") default_copyright)
      else mret tt);;
     call (set_tag (lit "comment") cli_comment);;
     new_file_path ← call (save_as_new_file None);
     print (lit "New file created: " ++ PosixPath.basename new_file_path);;
     print (lit "All tags have been applied to the new file.");;
     print [])
    (fun e =>
       write (PrintError (lit "Error creating new file: ") e);;
       print []).

(** The [while True] of [main]. *)
Fixpoint main_loop (fuel : nat) : IO unit :=
  match fuel with
  | O => io_raise OutOfFuel
  | S fuel' =>
      choice ← get_user_choice fuel;
      if bool_decide (choice = lit "8") then print (lit "Goodbye!")
      else
        (if bool_decide (choice = lit "1") then edit_tag (lit "title") (lit "Title")
         else if bool_decide (choice = lit "2") then edit_tag (lit "artist") (lit "Artist")
         else if bool_decide (choice = lit "3")
              then edit_tag (lit "lyricist") (lit "Lyricist (Author)")
         else if bool_decide (choice = lit "4") then edit_tag (lit "composer") (lit "Composer")
         else if bool_decide (choice = lit "5")
              then edit_tag (lit "copyright") (lit "Copyright")
         else if bool_decide (choice = lit "6") then copy_song_info
         else if bool_decide (choice = lit "7") then save_new_file
         else mret tt);;
        (if bool_decide (choice ∈ [lit "1"; lit "2"; lit "3"; lit "4"; lit "5"])
         then display_current_tags else mret tt);;
        main_loop fuel'
  end.

(** What a run of the program leaves: how it ended, the disk, the input
    not read and what was written. *)
Record Run := { ended : signal + unit; disk_after : gmap str File;
                unread : list str; written : list out }.

(** [main()] for the arguments [argv], on a disk and an input. *)
Definition main (fuel : nat) (argv : list str) (d : gmap str File)
    (lines : list str) : Run :=
  match argv with
  | [_; mp3_file] =>
      match __init__ d mp3_file with
      | inl (FileNotFoundError msg) | inl (ValueError msg) =>
          {| ended := inl (SystemExit 1); disk_after := d; unread := lines;
             written := [Print (lit "Error: " ++ msg)] |}
      | inl e =>
          {| ended := inl (Raised e); disk_after := d; unread := lines;
             written := [] |}
      | inr tagger =>
          let '(r, env) :=
            (print_banner;; display_current_tags;; main_loop fuel)
              {| world := {| self := tagger; disk := d |};
                 stdin := lines; stdout := [] |} in
          {| ended := r; disk_after := disk (world env);
             unread := stdin env; written := stdout env |}
      end
  | _ =>
      {| ended := inl (SystemExit 1); disk_after := d; unread := lines;
         written := [Print (lit "Usage: python mp3_tagger.py <mp3_file>")] |}
  end.

(** What [get_user_choice] writes before it asks, how it asks, and what
    it answers to a line that is no choice. *)
Definition menu : list out :=
  [ Print (lit "Choose an option:");
    Print (lit "1. Edit Title");
    Print (lit "2. Edit Artist");
    Print (lit "3. Edit Lyricist");
    Print (lit "4. Edit Composer");
    Print (lit "5. Edit Copyright");
    Print (lit "6. Copy Song Info");
    Print (lit "7. Save as New File");
    Print (lit "8. Exit");
    Print [] ].

Definition ask : out := Prompt (lit "Enter your choice (1-8): ").

Definition invalid : out := Print (lit "Invalid choice. Please enter 1-8.").

(** The object is on [path] and the file at [path] is [f]. *)
Definition source_kept (path : str) (f : File) (env : Env) : Prop :=
  file_path (self (world env)) = path ∧ disk (world env) !! path = Some f.

(** A step that returns or stops at the end of the input, reads no more
    than there is, and keeps the source. *)
Definition harmless (path : str) (f : File) (op : IO unit) : Prop :=
  ∀ env, source_kept path f env →
    ∃ r env', op env = (r, env') ∧
              (r = inr tt ∨ r = inl EOFError) ∧
              source_kept path f env' ∧
              (length (stdin env') ≤ length (stdin env))%nat.

End Cli.

(** ** The edit page of [app.py]

    The view [edit_tags] of the web application, with the framework
    reduced to what the view asks of it: the session is a map from
    session id to the path of the upload, the form a map from field name
    to text, a response is one of the four the view returns, and the
    messages given to [flash] are kept in order. *)

Module Web.

Inductive method := GET | POST.

(** [flash(message)], [flash(message, 'success')], and [flash] of a
    prefix followed by the text of a caught exception. *)
Inductive flash_msg :=
| Flash (message : str)
| FlashSuccess (message : str)
| FlashError (prefix : str) (e : exn).

(** [redirect(url_for('index'))], [redirect(request.url)],
    [render_template(...)], [send_file(...)]; or an exception no handler
    of the view catches. *)
Inductive response :=
| RedirectIndex
| RedirectSelf
| Render (template : str) (tags : dict str) (filename : str)
| SendFile (path download_name : str)
| Uncaught (e : exn).

Record State := { files : gmap str File; session : gmap str str;
                  flashed : list flash_msg }.

(** [request.form.get(k, '')] *)
Definition form_get (form : gmap str str) (k : str) : str := default [] (form !! k).

Definition default_copyright : str :=
  lit "Copyright " ++ [0xA9]
  ++ lit " Stiftelsen Skjulte Skatters Forlag. All Rights Reserved.".

Definition web_comment : str := lit "https://activechristianity.org".

(** The copyright a POST stores: the field stripped, or the default
    notice. *)
Definition posted_copyright (form : gmap str str) : str :=
  if negb (truthy (strip (form_get form (lit "copyright"))))
  then default_copyright
  else strip (form_get form (lit "copyright")).

(** The file name a POST leads to, and the path of the file it writes. *)
Definition posted_filename (form : gmap str str) : str :=
  (if truthy (strip (form_get form (lit "title")))
   then form_get form (lit "title") else lit "Untitled") ++ name_suffix.

Definition posted_path (upload_folder : str) (form : gmap str str) : str :=
  PosixPath.join
    (PosixPath.dirname (PosixPath.join upload_folder (lit "output.mp3")))
    (posted_filename form).

(** The frames the constructor reads from a file. *)
Definition frames_of (f : File) : gmap str Frame :=
  match id3 f with Block frames => frames | _ => ∅ end.

(** The tag updates of a POST, from the form. *)
Definition update_tags (form : gmap str str) : M unit :=
  let copyright_value := strip (form_get form (lit "copyright")) in
  let copyright_value :=
    if negb (truthy copyright_value) then default_copyright else copyright_value in
  set_tag (lit "title") (form_get form (lit "title"));;
  set_tag (lit "artist") (form_get form (lit "artist"));;
  set_tag (lit "lyricist") (form_get form (lit "lyricist"));;
  set_tag (lit "composer") (form_get form (lit "composer"));;
  set_tag (lit "copyright") copyright_value;;
  set_tag (lit "comment") web_comment.

(** [edit_tags(session_id)] for a request with method [meth] and form
    [form]; [upload_folder] is [app.config['UPLOAD_FOLDER']]. *)
Definition edit_tags (upload_folder session_id : str) (meth : method)
    (form : gmap str str) (st : State) : response * State :=
  let flash m := {| files := files st; session := session st;
                    flashed := flashed st ++ [m] |} in
  match session st !! session_id with
  | None => (RedirectIndex, flash (Flash (lit "Session expired. Please upload the file again.")))
  | Some file_path =>
      match __init__ (files st) file_path with
      | inl (FileNotFoundError msg) | inl (ValueError msg) =>
          (RedirectIndex, flash (Flash (lit "Error loading file: " ++ msg)))
      | inl e => (Uncaught e, st)
      | inr tagger =>
          match meth with
          | POST =>
              match update_tags form {| self := tagger; disk := files st |} with
              | (inl e, w) =>
                  (Uncaught e, {| files := disk w; session := session st;
                                  flashed := flashed st |})
              | (inr _, w) =>
                  let output_path := PosixPath.join upload_folder (lit "output.mp3") in
                  match App.save_as_new_file output_path w with
                  | (inr new_file_path, w') =>
                      (SendFile new_file_path (PosixPath.basename new_file_path),
                       {| files := delete file_path (disk w');
                          session := delete session_id (session st);
                          flashed := flashed st ++
                            [FlashSuccess (lit "File successfully created and downloaded! Upload another file to continue.")] |})
                  | (inl e, w') =>
                      (RedirectSelf,
                       {| files := disk w'; session := session st;
                          flashed := flashed st ++
                            [FlashError (lit "Error creating file: ") e] |})
                  end
              end
          | GET =>
              match get_all_tags {| self := tagger; disk := files st |} with
              | (inr current_tags, _) =>
                  (Render (lit "edit.html") current_tags (PosixPath.basename file_path), st)
              | (inl e, _) => (Uncaught e, st)
              end
          end
      end
  end.

(** A session with one upload, and a form. *)
Definition sample_state : State :=
  {| files := {[ lit "/tmp/up/in.mp3" := {| audio := [0xFF; 0xFB]; id3 := NoHeader |} ]};
     session := {[ lit "abc" := lit "/tmp/up/in.mp3" ]};
     flashed := [] |}.


End Web.

(** ** Strings *)

Section Strings.

Lemma split_nonempty sep s : split sep s ≠ [].
Proof.
  destruct s as [|c s]; simpl; [done|].
  destruct (c =? sep); [done|]. by destruct (split sep s).
Qed.

(** Joining what was split at a separator gives the string back. *)
Lemma join_split sep s : PyStr.join [sep] (split sep s) = s.
Proof.
  induction s as [|c s IH]; simpl; [done|].
  destruct (N.eqb_spec c sep) as [->|Hne].
  - pose proof (split_nonempty sep s) as Hs.
    destruct (split sep s) as [|w ws]; [done|].
    simpl in *. by rewrite IH.
  - pose proof (split_nonempty sep s) as Hs.
    destruct (split sep s) as [|w ws]; [done|].
    simpl in *. destruct ws; simpl in *; by rewrite <- IH.
Qed.

Lemma truthy_false (s : str) : truthy s = false ↔ s = [].
Proof. destruct s; simpl; split; congruence. Qed.

Lemma truthy_true (s : str) : truthy s = true ↔ s ≠ [].
Proof. destruct s; simpl; split; congruence. Qed.

End Strings.

(** [str(frame)] of a frame built from a string is that string. *)
Lemma frame_str_stored name cls v : frame_str (stored_frame name cls v) = v.
Proof.
  unfold stored_frame. case_bool_decide; simpl; apply join_split.
Qed.

(** ** The two tag maps *)

Lemma dict_get_None {V} (d : dict V) k : dict_get d k = None ↔ k ∉ d.*1.
Proof.
  induction d as [|[k' v] d IH]; simpl.
  - split; [intros _; apply not_elem_of_nil|done].
  - case_bool_decide as Hk; subst.
    + split; [done|]. intros []. apply elem_of_cons. by left.
    + rewrite IH, elem_of_cons. split.
      * intros Hn [Heq|Hin]; [by apply Hk|by apply Hn].
      * intros Hn Hin. apply Hn. by right.
Qed.

Lemma get_tag_map_keys : get_tag_map.*1 = tag_names.
Proof. reflexivity. Qed.

Lemma set_tag_map_keys : set_tag_map.*1 = tag_names.
Proof. reflexivity. Qed.

Ltac six_names H :=
  unfold tag_names in H;
  repeat (apply elem_of_cons in H as [->|H]);
  [..|by apply not_elem_of_nil in H].

(** For each of the six names, the class [set_tag] picks and the key it
    writes, which is the key [get_tag] reads. *)
Lemma tag_maps_agree name :
  name ∈ tag_names →
  ∃ cls key,
    dict_get set_tag_map name = Some cls ∧
    dict_get get_tag_map name = Some key ∧
    (if bool_decide (name = lit "comment")
     then lit "COMM::eng" else __name__ cls) = key.
Proof.
  intros H. six_names H.
  - by exists TIT2, (lit "TIT2").
  - by exists TPE1, (lit "TPE1").
  - by exists TEXT, (lit "TEXT").
  - by exists TCOM, (lit "TCOM").
  - by exists TCOP, (lit "TCOP").
  - by exists COMM, (lit "COMM::eng").
Qed.

(** Distinct names have distinct keys. *)
Lemma get_tag_map_inj a b ka kb :
  dict_get get_tag_map a = Some ka →
  dict_get get_tag_map b = Some kb →
  a ≠ b → ka ≠ kb.
Proof.
  intros Ha Hb Hne.
  assert (a ∈ tag_names) as Hain.
  { rewrite <- get_tag_map_keys. destruct (decide (a ∈ get_tag_map.*1)) as [|Hn]; [done|].
    apply dict_get_None in Hn. congruence. }
  assert (b ∈ tag_names) as Hbin.
  { rewrite <- get_tag_map_keys. destruct (decide (b ∈ get_tag_map.*1)) as [|Hn]; [done|].
    apply dict_get_None in Hn. congruence. }
  six_names Hain; six_names Hbin; try done;
    vm_compute in Ha; vm_compute in Hb;
    injection Ha as <-; injection Hb as <-; discriminate.
Qed.

(** ** [get_tag] and [set_tag] *)

Lemma world_eta w :
  {| self := {| file_path := file_path (self w); tags := tags (self w) |};
     disk := disk w |} = w.
Proof. by destruct w as [[] ?]. Qed.

(** [get_tag] never changes the world. *)
Lemma get_tag_pure name w : snd (get_tag name w) = w.
Proof.
  unfold get_tag. destruct (dict_get get_tag_map name); [|done].
  unfold mbind, M_bind, bind, get_tags; simpl.
  by destruct (tags (self w) !! _).
Qed.

(** What [get_tag] returns for a name with key [key]. *)
Lemma get_tag_key name key w :
  dict_get get_tag_map name = Some key →
  get_tag name w = (inr (from_option frame_str [] (tags (self w) !! key)), w).
Proof.
  intros Hk. unfold get_tag. rewrite Hk.
  unfold mbind, M_bind, bind, get_tags; simpl.
  by destruct (tags (self w) !! key).
Qed.

(** What [set_tag] does for a name with class [cls] and key [key]: the
    frame is written when the value has a non-blank character, and is
    removed otherwise. *)
Lemma set_tag_key name cls key v w :
  dict_get set_tag_map name = Some cls →
  (if bool_decide (name = lit "comment")
   then lit "COMM::eng" else __name__ cls) = key →
  set_tag name v w =
    (inr tt,
     {| self := {| file_path := file_path (self w);
                   tags := if truthy (strip v)
                           then <[key := stored_frame name cls v]> (tags (self w))
                           else delete key (tags (self w)) |};
        disk := disk w |}).
Proof.
  intros Hc Hk. unfold set_tag, stored_frame. rewrite Hc.
  unfold mbind, M_bind, bind, get_tags, put_tags, mret, M_ret, ret.
  revert Hk. destruct (bool_decide (name = lit "comment")); intros <-;
    (destruct (truthy (strip v)); [reflexivity|]);
    (case_bool_decide as Hin; [reflexivity|]);
    (rewrite delete_id; [by rewrite world_eta|by apply eq_None_not_Some]).
Qed.

Lemma in_tag_names name : bool_decide (name ∈ tag_names) = true → name ∈ tag_names.
Proof. apply bool_decide_eq_true_1. Qed.

Lemma not_in_tag_names name : bool_decide (name ∈ tag_names) = false → name ∉ tag_names.
Proof. apply bool_decide_eq_false_1. Qed.

(** C1 (as amended): for each of the six names and every string [v],
    [set_tag name v] followed by [get_tag name] returns [v] itself, with
    its surrounding whitespace, when [v.strip()] is non-empty, and the
    empty string when [v] is blank. *)
Theorem set_then_get (name v : str) (w : World) :
  name ∈ tag_names →
  fst ((set_tag name v;; get_tag name) w)
  = inr (if truthy (strip v) then v else []).
Proof.
  intros Hin. destruct (tag_maps_agree name Hin) as (cls & key & Hc & Hg & Hk).
  unfold mbind, M_bind, bind.
  rewrite (set_tag_key name cls key v w Hc Hk), (get_tag_key name key _ Hg).
  simpl. destruct (truthy (strip v)).
  - by rewrite lookup_insert_eq; simpl; rewrite frame_str_stored.
  - by rewrite lookup_delete_eq.
Qed.

Lemma set_then_get_witness :
  lit "title" ∈ tag_names ∧
  fst ((set_tag (lit "title") (lit " x ");; get_tag (lit "title")) untagged)
  = inr (if truthy (strip (lit " x ")) then lit " x " else []).
Proof.
  split; [by apply in_tag_names|].
  apply (set_then_get (lit "title") (lit " x ") untagged).
  by apply in_tag_names.
Defined.

(** C1 fails as stated: a title set to [" x "] reads back as [" x "],
    not as its stripped form ["x"]. *)
Lemma set_then_get_not_stripped :
  truthy (strip (lit " x ")) = true ∧
  strip (lit " x ") = lit "x" ∧
  fst ((set_tag (lit "title") (lit " x ");; get_tag (lit "title")) untagged)
  = inr (lit " x ") ∧
  fst ((set_tag (lit "title") (lit " x ");; get_tag (lit "title")) untagged)
  ≠ inr (strip (lit " x ")).
Proof. by vm_compute. Qed.

(** C6: a name outside the six makes [get_tag] and [set_tag] raise
    [ValueError("Unknown tag: ...")], whatever the value, and leaves the
    object as it was; for the six names both return normally. *)
Theorem unknown_tag_raises (name v : str) (w : World) :
  (name ∉ tag_names →
     get_tag name w = (inl (ValueError (lit "Unknown tag: " ++ name)), w) ∧
     set_tag name v w = (inl (ValueError (lit "Unknown tag: " ++ name)), w)) ∧
  (name ∈ tag_names →
     (∃ s, get_tag name w = (inr s, w)) ∧
     (∃ w', set_tag name v w = (inr tt, w'))).
Proof.
  split.
  - intros Hn. unfold get_tag, set_tag.
    assert (dict_get get_tag_map name = None) as ->
      by (apply dict_get_None; by rewrite get_tag_map_keys).
    assert (dict_get set_tag_map name = None) as ->
      by (apply dict_get_None; by rewrite set_tag_map_keys).
    done.
  - intros Hin. destruct (tag_maps_agree name Hin) as (cls & key & Hc & Hg & Hk).
    rewrite (set_tag_key name cls key v w Hc Hk), (get_tag_key name key _ Hg).
    eauto.
Qed.

Lemma unknown_tag_raises_witness :
  (get_tag (lit "album") untagged
   = (inl (ValueError (lit "Unknown tag: " ++ lit "album")), untagged) ∧
   set_tag (lit "album") (lit "x") untagged
   = (inl (ValueError (lit "Unknown tag: " ++ lit "album")), untagged)) ∧
  ((∃ s, get_tag (lit "title") untagged = (inr s, untagged)) ∧
   (∃ w', set_tag (lit "title") (lit "x") untagged = (inr tt, w'))).
Proof.
  split.
  - apply (unknown_tag_raises (lit "album") (lit "x") untagged).
    by apply not_in_tag_names.
  - apply (unknown_tag_raises (lit "title") (lit "x") untagged).
    by apply in_tag_names.
Defined.

(** C8: [get_all_tags] returns a dict whose keys are the six names, in
    order, each mapped to what [get_tag] returns for it in the same
    state, and it leaves the object and the disk as they were. *)
Theorem get_all_tags_reads (w : World) :
  ∃ d, get_all_tags w = (inr d, w) ∧
       d.*1 = tag_names ∧
       Forall (λ name, ∃ value, dict_get d name = Some value ∧
                                 get_tag name w = (inr value, w)) tag_names.
Proof.
  unfold get_all_tags, mbind, M_bind, bind.
  assert (∀ name, name ∈ tag_names → ∃ s, get_tag name w = (inr s, w)) as Hget.
  { intros name Hin. destruct (tag_maps_agree name Hin) as (cls & key & Hc & Hg & Hk).
    rewrite (get_tag_key name key _ Hg). eauto. }
  destruct (Hget (lit "title")) as [s1 H1]; [by apply in_tag_names|].
  destruct (Hget (lit "artist")) as [s2 H2]; [by apply in_tag_names|].
  destruct (Hget (lit "lyricist")) as [s3 H3]; [by apply in_tag_names|].
  destruct (Hget (lit "composer")) as [s4 H4]; [by apply in_tag_names|].
  destruct (Hget (lit "copyright")) as [s5 H5]; [by apply in_tag_names|].
  destruct (Hget (lit "comment")) as [s6 H6]; [by apply in_tag_names|].
  rewrite H1, H2, H3, H4, H5, H6.
  eexists. split; [reflexivity|]. split; [reflexivity|].
  repeat (apply Forall_cons; split; [eexists; split; [reflexivity|done]|]).
  apply Forall_nil_2.
Qed.

(** C9: the six names have six different frame keys, and for two
    different names [a] and [b] among them [set_tag a v] does not change
    what [get_tag b] returns. *)
Theorem set_tag_other_name (a b v : str) (w : World) :
  a ∈ tag_names → b ∈ tag_names → a ≠ b →
  get_tag_map.*2 = [ lit "TIT2"; lit "TPE1"; lit "TEXT"; lit "TCOM";
                     lit "TCOP"; lit "COMM::eng" ] ∧
  NoDup (get_tag_map.*2) ∧
  fst ((set_tag a v;; get_tag b) w) = fst (get_tag b w).
Proof.
  intros Ha Hb Hne. split; [reflexivity|]. split.
  { apply (bool_decide_unpack _). by vm_compute. }
  destruct (tag_maps_agree a Ha) as (cls & ka & Hc & Hga & Hk).
  destruct (tag_maps_agree b Hb) as (clsb & kb & _ & Hgb & _).
  pose proof (get_tag_map_inj a b ka kb Hga Hgb Hne) as Hkey.
  unfold mbind, M_bind, bind.
  rewrite (set_tag_key a cls ka v w Hc Hk), !(get_tag_key b kb _ Hgb).
  simpl. destruct (truthy (strip v)).
  - by rewrite lookup_insert_ne.
  - by rewrite lookup_delete_ne.
Qed.

Lemma set_tag_other_name_witness :
  get_tag_map.*2 = [ lit "TIT2"; lit "TPE1"; lit "TEXT"; lit "TCOM";
                     lit "TCOP"; lit "COMM::eng" ] ∧
  NoDup (get_tag_map.*2) ∧
  fst ((set_tag (lit "comment") (lit "hello");; get_tag (lit "title")) my_song)
  = fst (get_tag (lit "title") my_song).
Proof.
  apply (set_tag_other_name (lit "comment") (lit "title") (lit "hello") my_song).
  - by apply in_tag_names.
  - by apply in_tag_names.
  - apply (bool_decide_eq_false_1 (lit "comment" = lit "title")). reflexivity.
Defined.

(** ** The extension test of the constructor *)

Section Extension.

Ltac cmp :=
  repeat match goal with
    | |- context [N.leb ?a ?b] => destruct (N.leb_spec a b)
    | |- context [N.eqb ?a ?b] => destruct (N.eqb_spec a b)
    end; simpl.

(** The code points whose lower case is one of [.], [m], [p], [3]. *)
Lemma lower_cp_single c x :
  x ∈ [0x2E; 0x33; 0x6D; 0x70] →
  lower_cp c = [x] ↔ c = x ∨ (0x61 <= x ∧ c + 32 = x).
Proof.
  intros Hx. unfold lower_cp.
  repeat (apply elem_of_cons in Hx as [->|Hx]);
    [..|by apply not_elem_of_nil in Hx];
    cmp; split; intros Hlow;
    try (injection Hlow as Hlow); try (destruct Hlow as [Hlow|[? Hlow]]);
    try discriminate; try (f_equal; lia); try lia.
Qed.

Lemma lower_cp_shape c :
  (∃ y, lower_cp c = [y]) ∨ lower_cp c = [0x69; 0x307].
Proof. unfold lower_cp. cmp; eauto. Qed.

(** One step of matching the reversed suffix against the reversed
    lower-cased path. *)
Lemma prefix_lower_step x t c rest :
  x ≠ 0x307 →
  (x :: t) `prefix_of` (rev (lower_cp c) ++ rest)
  ↔ lower_cp c = [x] ∧ t `prefix_of` rest.
Proof.
  intros Hx. destruct (lower_cp_shape c) as [[y ->]| ->]; simpl.
  - split.
    + intros H. pose proof (prefix_cons_inv_1 _ _ _ _ H) as ->.
      split; [done|]. by apply prefix_cons_inv_2 in H.
    + intros [[= ->] H]. by apply prefix_cons.
  - split.
    + intros H. by apply prefix_cons_inv_1 in H.
    + by intros [? _].
Qed.

Lemma rev_lower s : rev (lower s) = flat_map (λ c, rev (lower_cp c)) (rev s).
Proof.
  unfold lower. induction s as [|c s IH]; simpl; [done|].
  rewrite rev_app_distr, IH, flat_map_app. simpl. by rewrite app_nil_r.
Qed.

(** The constructor's test [file_path.lower().endswith('.mp3')] holds
    exactly when the last four code points are [.mp3] in either case. *)
Lemma endswith_lower_mp3 path :
  endswith (lower path) (lit ".mp3") = has_mp3_extension path.
Proof.
  unfold endswith, has_mp3_extension.
  apply eq_true_iff_eq. rewrite bool_decide_eq_true.
  rewrite suffix_prefix_reverse. unfold reverse.
  rewrite <- !rev_alt, rev_lower.
  change (rev (lit ".mp3")) with [0x33; 0x70; 0x6D; 0x2E].
  destruct (rev path) as [|c3 [|cp [|cm [|cd r]]]]; simpl.
  - split; [|done]. intros H. by apply prefix_nil_inv in H.
  - rewrite prefix_lower_step by done.
    split; [|done]. intros [_ H]. by apply prefix_nil_inv in H.
  - rewrite !prefix_lower_step by done.
    split; [|done]. intros (_ & _ & H). by apply prefix_nil_inv in H.
  - rewrite !prefix_lower_step by done.
    split; [|done]. intros (_ & _ & _ & H). by apply prefix_nil_inv in H.
  - rewrite !prefix_lower_step by done.
    rewrite !lower_cp_single by (apply (bool_decide_unpack _); by vm_compute).
    rewrite !andb_true_iff, !orb_true_iff, !N.eqb_eq.
    split.
    + intros (H3 & Hp & Hm & Hd & _). lia.
    + intros (((Hd & Hm) & Hp) & H3).
      repeat split; try lia. apply prefix_nil.
Qed.

End Extension.

(** ** The constructor *)

Lemma exists_true d path : exists_ d path = true ↔ is_Some (d !! path).
Proof. unfold exists_. apply bool_decide_eq_true. Qed.

Lemma exists_false d path : exists_ d path = false ↔ d !! path = None.
Proof.
  unfold exists_. rewrite bool_decide_eq_false. symmetry. apply eq_None_not_Some.
Qed.

(** What the constructor returns for a file that is there and passes the
    extension test. *)
Lemma init_existing d path f :
  d !! path = Some f → has_mp3_extension path = true →
  __init__ d path
  = inr {| file_path := path;
           tags := match id3 f with Block frames => frames | _ => ∅ end |}.
Proof.
  intros Hf Hext. unfold __init__.
  rewrite (proj2 (exists_true d path)) by (by rewrite Hf).
  rewrite endswith_lower_mp3, Hext. simpl.
  unfold _load_tags, ID3_load. rewrite Hf. by destruct (id3 f).
Qed.

(** C3: the constructor raises [FileNotFoundError] for a path that is not
    on disk; for a path on disk whose last four characters are not
    [.mp3] in some casing it raises [ValueError]; for a path on disk with
    that extension it raises neither and returns the object. *)
Theorem init_errors (d : gmap str File) (path : str) :
  (d !! path = None →
     __init__ d path = inl (FileNotFoundError (lit "File not found: " ++ path))) ∧
  (is_Some (d !! path) → has_mp3_extension path = false →
     __init__ d path = inl (ValueError (lit "File must be an MP3 file"))) ∧
  (is_Some (d !! path) → has_mp3_extension path = true →
     ∃ t, __init__ d path = inr t ∧ file_path t = path).
Proof.
  repeat split.
  - intros Hn. unfold __init__. by rewrite (proj2 (exists_false d path) Hn).
  - intros Hs Hext. unfold __init__.
    rewrite (proj2 (exists_true d path) Hs), endswith_lower_mp3, Hext. done.
  - intros [f Hf] Hext. rewrite (init_existing d path f Hf Hext). eauto.
Qed.

Lemma init_errors_witness :
  __init__ untagged_disk (lit "gone.mp3")
  = inl (FileNotFoundError (lit "File not found: " ++ lit "gone.mp3")) ∧
  __init__ (<[lit "notes.txt" := {| audio := []; id3 := NoHeader |}]> untagged_disk)
           (lit "notes.txt")
  = inl (ValueError (lit "File must be an MP3 file")) ∧
  ∃ t, __init__ (<[lit "A.Mp3" := {| audio := []; id3 := Junk |}]> untagged_disk)
                (lit "A.Mp3") = inr t ∧ file_path t = lit "A.Mp3".
Proof.
  split; [|split].
  - apply (init_errors untagged_disk (lit "gone.mp3")). reflexivity.
  - apply (init_errors (<[lit "notes.txt" := {| audio := []; id3 := NoHeader |}]> untagged_disk)
                       (lit "notes.txt")).
    + rewrite lookup_insert_eq. eauto.
    + reflexivity.
  - apply (init_errors (<[lit "A.Mp3" := {| audio := []; id3 := Junk |}]> untagged_disk)
                       (lit "A.Mp3")).
    + rewrite lookup_insert_eq. eauto.
    + reflexivity.
Defined.

(** C5: for a file on disk with the [.mp3] extension and no tag block,
    or one that does not parse, the constructor returns an object with
    no frames, and [get_all_tags] on it maps each of the six names to the
    empty string. *)
Theorem init_untagged (d : gmap str File) (path : str) (f : File) :
  d !! path = Some f →
  has_mp3_extension path = true →
  id3 f = NoHeader ∨ id3 f = Junk →
  let t := {| file_path := path; tags := ∅ |} in
  __init__ d path = inr t ∧
  get_all_tags {| self := t; disk := d |}
  = (inr (map (λ name, (name, [])) tag_names), {| self := t; disk := d |}).
Proof.
  intros Hf Hext Hid t. split.
  - rewrite (init_existing d path f Hf Hext). by destruct Hid as [-> | ->].
  - reflexivity.
Qed.

Lemma init_untagged_witness :
  let t := {| file_path := lit "song.mp3"; tags := ∅ |} in
  __init__ untagged_disk (lit "song.mp3") = inr t ∧
  get_all_tags {| self := t; disk := untagged_disk |}
  = (inr (map (λ name, (name, [])) tag_names), {| self := t; disk := untagged_disk |}).
Proof.
  apply (init_untagged untagged_disk (lit "song.mp3")
           {| audio := [0xFF; 0xFB; 0x90]; id3 := NoHeader |}).
  - reflexivity.
  - reflexivity.
  - left. reflexivity.
Defined.

(** ** Paths *)

Section Paths.
Import PosixPath.

Lemma after_last_sep_none f :
  existsb (N.eqb sep) f = false → after_last_sep f = f.
Proof.
  destruct f as [|c f]; [done|]. cbn [existsb after_last_sep].
  intros H. apply orb_false_iff in H as [Hc Hf].
  rewrite Hf. rewrite N.eqb_sym in Hc. by rewrite Hc.
Qed.

Lemma after_last_sep_app a f :
  existsb (N.eqb sep) f = false → after_last_sep (a ++ sep :: f) = f.
Proof.
  intros Hf. induction a as [|c a IH]; cbn [app after_last_sep].
  - by rewrite Hf, N.eqb_refl.
  - rewrite existsb_app. cbn [existsb]. rewrite N.eqb_refl.
    by rewrite orb_true_r.
Qed.

(** The base name of a joined path is the name, when the name has no
    separator. *)
Lemma basename_join a f :
  existsb (N.eqb sep) f = false → basename (join a f) = f.
Proof.
  intros Hf. unfold basename, join.
  assert (isabs f = false) as ->.
  { destruct f as [|c f]; [done|]. cbn [existsb isabs] in *.
    apply orb_false_iff in Hf as [Hc _]. by rewrite N.eqb_sym. }
  destruct a as [|c a] using rev_ind.
  - by apply after_last_sep_none.
  - clear IHa. assert (truthy (a ++ [c]) = true) as -> by by destruct a.
    cbn [negb orb]. unfold endswith. case_bool_decide as Hs.
    + apply (suffix_snoc_inv_1 _ _ []) in Hs as <-.
      rewrite <- app_assoc. by apply after_last_sep_app.
    + by apply (after_last_sep_app (a ++ [c])).
Qed.

(** A joined path is absolute exactly when the directory or the name
    is. *)
Lemma isabs_join a f : isabs (join a f) = isabs a || isabs f.
Proof.
  unfold join. destruct (isabs f) eqn:Hf; [by rewrite orb_true_r|].
  rewrite orb_false_r.
  destruct a as [|c a]; simpl; [by rewrite Hf|].
  by destruct (endswith (c :: a) [sep]).
Qed.

(** A joined path ends with the name. *)
Lemma join_suffix a f : f `suffix_of` join a f.
Proof.
  unfold join. destruct (isabs f); [done|].
  destruct (negb (truthy a) || endswith a [sep]).
  - by apply suffix_app_r.
  - by do 2 apply suffix_app_r.
Qed.

Lemma join_inj a f g :
  isabs f = false → isabs g = false → join a f = join a g → f = g.
Proof.
  unfold join. intros -> ->.
  destruct (negb (truthy a) || endswith a [sep]); intros H.
  - by apply app_inv_head in H.
  - by do 2 apply app_inv_head in H.
Qed.

End Paths.

Lemma name_suffix_ext : name_suffix = take 37 name_suffix ++ lit ".mp3".
Proof. reflexivity. Qed.

Lemma has_mp3_extension_app x : has_mp3_extension (x ++ lit ".mp3") = true.
Proof.
  unfold has_mp3_extension. rewrite rev_app_distr.
  change (rev (lit ".mp3")) with [0x33; 0x70; 0x6D; 0x2E]. reflexivity.
Qed.

Lemma has_mp3_extension_suffix s :
  lit ".mp3" `suffix_of` s → has_mp3_extension s = true.
Proof. intros [x ->]. apply has_mp3_extension_app. Qed.

(** The path [save_as_new_file] writes passes the constructor's
    extension test. *)
Lemma target_has_mp3_extension a title :
  has_mp3_extension (PosixPath.join a (title ++ name_suffix)) = true.
Proof.
  apply has_mp3_extension_suffix.
  etrans; [|apply join_suffix].
  rewrite name_suffix_ext, !app_assoc. by apply suffix_app_r.
Qed.

(** ** [save_as_new_file] *)

Lemma get_title w : get_tag (lit "title") w = (inr (title_of w), w).
Proof. by apply get_tag_key. Qed.

Ltac run_save w :=
  unfold mbind, M_bind, bind; rewrite (get_title w);
  unfold get_file_path, get_tags, shutil_copy2, ID3_save, mret, M_ret, ret,
    with_new_file, filename_of;
  cbn [self disk fst snd];
  destruct (truthy (title_of w)); cbn [negb];
  (destruct (disk w !! file_path (self w)) as [f|]; [|reflexivity]);
  (case_bool_decide; [reflexivity|]);
  cbn [self disk]; rewrite lookup_insert_eq, insert_insert_eq; reflexivity.

(** The whole of [save_as_new_file]: it fails when the source is gone or
    is the target itself, and otherwise writes one file at the joined
    path and returns that path. *)
Lemma save_as_new_file_run od w :
  save_as_new_file od w =
    let p := PosixPath.join (target_dir od w) (filename_of w) in
    match disk w !! file_path (self w) with
    | None => (inl (FileNotFoundError (file_path (self w))), w)
    | Some f =>
        if bool_decide (file_path (self w) = p) then (inl SameFileError, w)
        else (inr p, with_new_file w p f)
    end.
Proof.
  unfold save_as_new_file, target_dir. destruct (truthy_opt od); run_save w.
Qed.

Lemma app_save_as_new_file_run output_path w :
  App.save_as_new_file output_path w =
    let p := PosixPath.join (PosixPath.dirname output_path) (filename_of w) in
    match disk w !! file_path (self w) with
    | None => (inl (FileNotFoundError (file_path (self w))), w)
    | Some f =>
        if bool_decide (file_path (self w) = p) then (inl SameFileError, w)
        else (inr p, with_new_file w p f)
    end.
Proof. unfold App.save_as_new_file. run_save w. Qed.

(** A call that returns. *)
Lemma save_as_new_file_ok od w p w' :
  save_as_new_file od w = (inr p, w') →
  ∃ f, disk w !! file_path (self w) = Some f ∧
       p = PosixPath.join (target_dir od w) (filename_of w) ∧
       p ≠ file_path (self w) ∧
       w' = with_new_file w p f.
Proof.
  rewrite save_as_new_file_run. cbn zeta.
  destruct (disk w !! file_path (self w)) as [f|]; [|done].
  case_bool_decide as Hne; [done|]. intros [= <- <-]. eauto.
Qed.

Lemma app_save_as_new_file_ok output_path w p w' :
  App.save_as_new_file output_path w = (inr p, w') →
  ∃ f, disk w !! file_path (self w) = Some f ∧
       p = PosixPath.join (PosixPath.dirname output_path) (filename_of w) ∧
       p ≠ file_path (self w) ∧
       w' = with_new_file w p f.
Proof.
  rewrite app_save_as_new_file_run. cbn zeta.
  destruct (disk w !! file_path (self w)) as [f|]; [|done].
  case_bool_decide as Hne; [done|]. intros [= <- <-]. eauto.
Qed.

(** The constructor looks at the disk only at its path. *)
Lemma init_lookup_ext d d' path :
  d !! path = d' !! path → __init__ d path = __init__ d' path.
Proof.
  intros H. unfold __init__, exists_, _load_tags, ID3_load. by rewrite H.
Qed.

(** Reading back the file that [save_as_new_file] wrote. *)
Lemma init_new_file w a title f :
  let p := PosixPath.join a (title ++ name_suffix) in
  __init__ (disk (with_new_file w p f)) p
  = inr {| file_path := p; tags := tags (self w) |}.
Proof.
  intros p.
  rewrite (init_existing _ p {| audio := audio f; id3 := Block (tags (self w)) |}).
  - done.
  - unfold with_new_file. cbn [disk]. by rewrite lookup_insert_eq.
  - apply target_has_mp3_extension.
Qed.

(** The object built from an untagged file has no frames. *)
Lemma init_no_header d path f t :
  d !! path = Some f → id3 f = NoHeader → __init__ d path = inr t →
  t = {| file_path := path; tags := ∅ |}.
Proof.
  intros Hf Hid. unfold __init__.
  destruct (negb (exists_ d path)); [done|].
  destruct (negb (endswith (lower path) (lit ".mp3"))); [done|].
  unfold _load_tags, ID3_load. rewrite Hf, Hid. by intros [= <-].
Qed.

(** C4: after a call of [save_as_new_file] that returns, the source file
    is on disk as it was, with the same frames; the new file carries the
    source's audio and exactly the frames that were in memory; the two
    files are different files and both exist; no other file changed and
    the object is as it was.  In particular, when the object was built
    from an untagged file and then had its title set to [Test] and its
    copyright set to the empty string, an object built from the new file
    reads [Test] for the title and the empty string for the copyright. *)
Theorem save_as_new_file_effect (od : option str) (w : World) (p : str) (w' : World) :
  save_as_new_file od w = (inr p, w') →
  disk w' !! file_path (self w) = disk w !! file_path (self w) ∧
  frames_on_disk (disk w') (file_path (self w))
    = frames_on_disk (disk w) (file_path (self w)) ∧
  frames_on_disk (disk w') p = Some (tags (self w)) ∧
  audio <$> disk w' !! p = audio <$> disk w !! file_path (self w) ∧
  p ≠ file_path (self w) ∧
  is_Some (disk w' !! p) ∧
  is_Some (disk w' !! file_path (self w)) ∧
  (∀ q, q ≠ p → disk w' !! q = disk w !! q) ∧
  self w' = self w ∧
  (∀ d0 path0 f0 t0,
     d0 !! path0 = Some f0 → id3 f0 = NoHeader →
     __init__ d0 path0 = inr t0 →
     snd ((set_tag (lit "title") (lit "Test");; set_tag (lit "copyright") [])
            {| self := t0; disk := d0 |}) = w →
     ∃ t', __init__ (disk w') p = inr t' ∧
           fst (get_tag (lit "title") {| self := t'; disk := disk w' |})
           = inr (lit "Test") ∧
           fst (get_tag (lit "copyright") {| self := t'; disk := disk w' |})
           = inr []).
Proof.
  intros Hsave.
  destruct (save_as_new_file_ok od w p w' Hsave) as (f & Hf & Hp & Hne & ->).
  assert (∀ q, q ≠ p → disk (with_new_file w p f) !! q = disk w !! q) as Hother.
  { intros q Hq. unfold with_new_file. cbn [disk]. by rewrite lookup_insert_ne. }
  assert (__init__ (disk (with_new_file w p f)) p
          = inr {| file_path := p; tags := tags (self w) |}) as Hnew.
  { rewrite Hp. unfold filename_of. apply init_new_file. }
  assert (disk (with_new_file w p f) !! p
          = Some {| audio := audio f; id3 := Block (tags (self w)) |}) as Hlook.
  { unfold with_new_file. cbn [disk]. by rewrite lookup_insert_eq. }
  repeat split.
  - by apply Hother.
  - unfold frames_on_disk.
    rewrite (init_lookup_ext _ (disk w) (file_path (self w))); [done|].
    by apply Hother.
  - unfold frames_on_disk. by rewrite Hnew.
  - by rewrite Hlook, Hf.
  - done.
  - by rewrite Hlook.
  - rewrite Hother by done. by rewrite Hf.
  - done.
  - intros d0 path0 f0 t0 Hf0 Hid Hinit Hw.
    rewrite (init_no_header d0 path0 f0 t0 Hf0 Hid Hinit) in Hw.
    eexists. split; [exact Hnew|].
    rewrite !get_tag_key with (key := lit "TIT2") by reflexivity.
    rewrite !get_tag_key with (key := lit "TCOP") by reflexivity.
    cbn [self tags fst]. rewrite <- Hw. by vm_compute.
Qed.

Lemma save_as_new_file_effect_witness :
  let w := snd ((set_tag (lit "title") (lit "Test");; set_tag (lit "copyright") [])
                  untagged) in
  let p := lit "/out/Test" ++ name_suffix in
  let w' := with_new_file w p {| audio := [0xFF; 0xFB; 0x90]; id3 := NoHeader |} in
  save_as_new_file (Some (lit "/out")) w = (inr p, w') ∧
  frames_on_disk (disk w') (lit "song.mp3") = frames_on_disk (disk w) (lit "song.mp3") ∧
  frames_on_disk (disk w') p = Some (tags (self w)) ∧
  ∃ t', __init__ (disk w') p = inr t' ∧
        fst (get_tag (lit "title") {| self := t'; disk := disk w' |}) = inr (lit "Test") ∧
        fst (get_tag (lit "copyright") {| self := t'; disk := disk w' |}) = inr [].
Proof.
  intros w p w'.
  assert (save_as_new_file (Some (lit "/out")) w = (inr p, w')) as Hsave
    by (vm_compute; reflexivity).
  split; [exact Hsave|].
  destruct (save_as_new_file_effect (Some (lit "/out")) w p w' Hsave)
    as (_ & Hsrc & Hnew & _ & _ & _ & _ & _ & _ & Hscen).
  split; [exact Hsrc|]. split; [exact Hnew|].
  apply (Hscen untagged_disk (lit "song.mp3")
           {| audio := [0xFF; 0xFB; 0x90]; id3 := NoHeader |}
           {| file_path := lit "song.mp3"; tags := ∅ |});
    reflexivity.
Defined.

Lemma saved_as_path dir w p w' :
  saved_as dir w p w' →
  ∃ f, disk w !! file_path (self w) = Some f ∧
       p = PosixPath.join dir (filename_of w) ∧
       p ≠ file_path (self w) ∧
       w' = with_new_file w p f.
Proof.
  intros [(od & -> & H)|(op & -> & H)].
  - by apply save_as_new_file_ok.
  - by apply app_save_as_new_file_ok in H.
Qed.

Lemma get_title_inv w title :
  fst (get_tag (lit "title") w) = inr title → title_of w = title.
Proof. rewrite get_title. by intros [= ->]. Qed.

(** C7 (as amended): a call of [save_as_new_file] that returns gives the
    path it wrote the new file at, which is the directory (the one
    given, or that of the source path when none or an empty one is given)
    joined with the file name; the path is absolute exactly when that
    directory or the name is, and nothing makes it absolute otherwise. *)
Theorem save_as_new_file_returns (od : option str) (w : World) (p : str) (w' : World) :
  save_as_new_file od w = (inr p, w') →
  p = PosixPath.join (target_dir od w) (filename_of w) ∧
  is_Some (disk w' !! p) ∧
  PosixPath.isabs p
  = PosixPath.isabs (target_dir od w) || PosixPath.isabs (filename_of w).
Proof.
  intros Hsave.
  destruct (save_as_new_file_ok od w p w' Hsave) as (f & Hf & Hp & Hne & ->).
  split; [done|]. split.
  - unfold with_new_file. cbn [disk]. by rewrite lookup_insert_eq.
  - rewrite Hp. apply isabs_join.
Qed.

Lemma save_as_new_file_returns_witness :
  let p := lit "/out/My Song" ++ name_suffix in
  let w' := with_new_file my_song p {| audio := [0xFF; 0xFB]; id3 := Block my_song_tags |} in
  save_as_new_file (Some (lit "/out")) my_song = (inr p, w') ∧
  p = PosixPath.join (target_dir (Some (lit "/out")) my_song) (filename_of my_song) ∧
  is_Some (disk w' !! p) ∧
  PosixPath.isabs p
  = PosixPath.isabs (target_dir (Some (lit "/out")) my_song)
    || PosixPath.isabs (filename_of my_song).
Proof.
  intros p w'.
  assert (save_as_new_file (Some (lit "/out")) my_song = (inr p, w')) as Hsave
    by (vm_compute; reflexivity).
  split; [exact Hsave|].
  exact (save_as_new_file_returns (Some (lit "/out")) my_song p w' Hsave).
Defined.

(** C7 fails as stated: for the source path [song.mp3] and no output
    directory the call returns a relative path, and so it does for the
    output directory [out]. *)
Lemma save_as_new_file_relative_path :
  fst (save_as_new_file None untagged) = inr (lit "Untitled" ++ name_suffix) ∧
  PosixPath.isabs (lit "Untitled" ++ name_suffix) = false ∧
  fst (save_as_new_file (Some (lit "out")) untagged)
  = inr (lit "out/Untitled" ++ name_suffix) ∧
  PosixPath.isabs (lit "out/Untitled" ++ name_suffix) = false.
Proof. by vm_compute. Qed.

(** C2 (as amended): when the title reads [My Song], either
    [save_as_new_file] writes, in the directory it targets, a file whose
    name is [My Song], a space, the copyright sign U+00A9 followed by the
    variation selector U+FE0F (bytes C2 A9 EF B8 8F), and
    [ Stiftelsen Skjulte Skatter Forlag.mp3]; when the title reads as
    the empty string the name starts with [Untitled] instead. *)
Theorem save_as_new_file_name (dir : str) (w : World) (p : str) (w' : World) :
  saved_as dir w p w' →
  (fst (get_tag (lit "title") w) = inr (lit "My Song") →
     p = PosixPath.join dir (lit "My Song" ++ name_suffix) ∧
     is_Some (disk w' !! p) ∧
     PosixPath.basename p = lit "My Song" ++ name_suffix ∧
     utf8 (PosixPath.basename p) = code_name_my_song) ∧
  (fst (get_tag (lit "title") w) = inr [] →
     p = PosixPath.join dir (lit "Untitled" ++ name_suffix) ∧
     is_Some (disk w' !! p) ∧
     PosixPath.basename p = lit "Untitled" ++ name_suffix ∧
     utf8 (PosixPath.basename p) = code_name_untitled).
Proof.
  intros Hs. destruct (saved_as_path dir w p w' Hs) as (f & Hf & Hp & Hne & ->).
  assert (is_Some (disk (with_new_file w p f) !! p)) as Hex.
  { unfold with_new_file. cbn [disk]. by rewrite lookup_insert_eq. }
  split; intros Ht; apply get_title_inv in Ht;
    unfold filename_of in Hp; rewrite Ht in Hp; cbn [truthy] in Hp;
    (split; [exact Hp|]); (split; [exact Hex|]);
    rewrite Hp, basename_join by reflexivity; split; reflexivity.
Qed.

Lemma save_as_new_file_name_witness :
  let p := lit "/out/My Song" ++ name_suffix in
  let w' := with_new_file my_song p {| audio := [0xFF; 0xFB]; id3 := Block my_song_tags |} in
  let q := lit "Untitled" ++ name_suffix in
  let v' := with_new_file untagged q {| audio := [0xFF; 0xFB; 0x90]; id3 := NoHeader |} in
  (saved_as (lit "/out") my_song p w' ∧
   fst (get_tag (lit "title") my_song) = inr (lit "My Song") ∧
   p = PosixPath.join (lit "/out") (lit "My Song" ++ name_suffix) ∧
   is_Some (disk w' !! p) ∧
   PosixPath.basename p = lit "My Song" ++ name_suffix ∧
   utf8 (PosixPath.basename p) = code_name_my_song) ∧
  (saved_as [] untagged q v' ∧
   fst (get_tag (lit "title") untagged) = inr [] ∧
   q = PosixPath.join [] (lit "Untitled" ++ name_suffix) ∧
   is_Some (disk v' !! q) ∧
   PosixPath.basename q = lit "Untitled" ++ name_suffix ∧
   utf8 (PosixPath.basename q) = code_name_untitled).
Proof.
  intros p w' q v'.
  assert (saved_as (lit "/out") my_song p w') as Hs.
  { left. exists (Some (lit "/out")). split; vm_compute; reflexivity. }
  assert (saved_as [] untagged q v') as Hv.
  { right. exists (lit "output.mp3"). split; vm_compute; reflexivity. }
  split.
  - split; [exact Hs|]. split; [reflexivity|].
    apply (save_as_new_file_name (lit "/out") my_song p w' Hs). reflexivity.
  - split; [exact Hv|]. split; [reflexivity|].
    apply (save_as_new_file_name [] untagged q v' Hv). reflexivity.
Defined.

(** C2 fails as stated: with the title [My Song] the name of the file
    written is not the byte sequence of the specification, which has the
    copyright sign alone, and no file is written under that name; the
    same holds for the empty title. *)
Lemma save_as_new_file_name_differs :
  fst (get_tag (lit "title") my_song) = inr (lit "My Song") ∧
  (∃ p w', save_as_new_file (Some (lit "/out")) my_song = (inr p, w') ∧
           utf8 (PosixPath.basename p) ≠ spec_name_my_song ∧
           Forall (λ q, utf8 (PosixPath.basename q) ≠ spec_name_my_song)
                  (map_to_list (disk w')).*1) ∧
  fst (get_tag (lit "title") untagged) = inr [] ∧
  (∃ p w', save_as_new_file (Some (lit "/out")) untagged = (inr p, w') ∧
           utf8 (PosixPath.basename p) ≠ spec_name_untitled ∧
           Forall (λ q, utf8 (PosixPath.basename q) ≠ spec_name_untitled)
                  (map_to_list (disk w')).*1).
Proof.
  split; [reflexivity|]. split; [|split; [reflexivity|]].
  - eexists _, _. split; [vm_compute; reflexivity|].
    split; [by vm_compute|].
    apply (bool_decide_unpack _). by vm_compute.
  - eexists _, _. split; [vm_compute; reflexivity|].
    split; [by vm_compute|].
    apply (bool_decide_unpack _). by vm_compute.
Qed.

(** ** Blank strings *)

Lemma lstrip_if_head P s c t : lstrip_if P s = c :: t → P c = false.
Proof.
  induction s as [|a s IH]; simpl; [done|].
  destruct (P a) eqn:Ha; [done|]. by intros [= <- _].
Qed.

Lemma lstrip_if_nil P s : lstrip_if P s = [] → forallb P s = true.
Proof.
  induction s as [|a s IH]; simpl; [done|].
  destruct (P a); [done|]. done.
Qed.

Lemma forallb_rev (P : N → bool) s : forallb P (rev s) = forallb P s.
Proof.
  induction s as [|a s IH]; simpl; [done|].
  rewrite forallb_app, IH. simpl. rewrite andb_true_r. apply andb_comm.
Qed.

(** A string that strips to nothing has only whitespace in it. *)
Lemma strip_nil s : strip s = [] → forallb isspace s = true.
Proof.
  unfold strip, rstrip_if. intros H.
  apply (f_equal (@rev N)) in H. rewrite rev_involutive in H. simpl in H.
  apply lstrip_if_nil in H. rewrite forallb_rev in H.
  destruct (lstrip_if isspace s) as [|c t] eqn:Hl.
  - by apply lstrip_if_nil.
  - apply lstrip_if_head in Hl. simpl in H. by rewrite Hl in H.
Qed.

Lemma blank_no_sep s :
  forallb isspace s = true → existsb (N.eqb PosixPath.sep) s = false.
Proof.
  induction s as [|c s IH]; cbn [forallb existsb]; [done|].
  intros [Hc Hs]%andb_true_iff. rewrite (IH Hs), orb_false_r.
  destruct (N.eqb_spec PosixPath.sep c) as [<-|]; [|done].
  by vm_compute in Hc.
Qed.

(** C10: [save_as_new_file] puts [Untitled] in the file name only when
    [get_tag('title')] is the empty string.  A title that is not empty is
    used as it is; in particular a title of whitespace alone, which an
    object built from a file can have, is the start of the file name and
    [Untitled] is not. *)
Theorem untitled_only_for_empty_title
    (dir : str) (w : World) (p : str) (w' : World) (title : str) :
  saved_as dir w p w' →
  fst (get_tag (lit "title") w) = inr title →
  (title = [] → p = PosixPath.join dir (lit "Untitled" ++ name_suffix)) ∧
  (title ≠ [] → p = PosixPath.join dir (title ++ name_suffix)) ∧
  (title ≠ [] → strip title = [] →
     p ≠ PosixPath.join dir (lit "Untitled" ++ name_suffix) ∧
     PosixPath.basename p = title ++ name_suffix).
Proof.
  intros Hs Ht. apply get_title_inv in Ht.
  destruct (saved_as_path dir w p w' Hs) as (f & Hf & Hp & Hne & ->).
  unfold filename_of in Hp. rewrite Ht in Hp.
  assert (title ≠ [] → p = PosixPath.join dir (title ++ name_suffix)) as Hfull.
  { intros Hn. by destruct title. }
  split; [by intros ->|]. split; [done|].
  intros Hn Hblank. rewrite (Hfull Hn).
  pose proof (blank_no_sep title (strip_nil title Hblank)) as Hsep.
  split.
  - intros Heq. apply join_inj in Heq.
    + apply app_inv_tail in Heq. rewrite Heq in Hblank. by vm_compute in Hblank.
    + destruct title as [|c t]; [done|]. cbn [app PosixPath.isabs].
      cbn [existsb] in Hsep. apply orb_false_iff in Hsep as [Hc _].
      by rewrite N.eqb_sym.
    + reflexivity.
  - apply basename_join. rewrite existsb_app, Hsep. reflexivity.
Qed.

Lemma untitled_only_for_empty_title_witness :
  let p := lit "/music/  " ++ name_suffix in
  let w' := with_new_file blank_title p
              {| audio := [0xFF; 0xFB]; id3 := Block blank_title_tags |} in
  __init__ (disk blank_title) (lit "/music/in.mp3") = inr (self blank_title) ∧
  saved_as (lit "/music") blank_title p w' ∧
  fst (get_tag (lit "title") blank_title) = inr (lit "  ") ∧
  p = PosixPath.join (lit "/music") (lit "  " ++ name_suffix) ∧
  p ≠ PosixPath.join (lit "/music") (lit "Untitled" ++ name_suffix) ∧
  PosixPath.basename p = lit "  " ++ name_suffix.
Proof.
  intros p w'.
  assert (saved_as (lit "/music") blank_title p w') as Hs.
  { left. exists None. split; vm_compute; reflexivity. }
  split; [reflexivity|]. split; [exact Hs|]. split; [reflexivity|].
  destruct (untitled_only_for_empty_title (lit "/music") blank_title p w' (lit "  ") Hs)
    as (_ & Hfull & Hblank); [reflexivity|].
  split; [by apply Hfull|].
  by apply Hblank.
Defined.

(** An unknown name: [set_tag] raises and leaves the world as it is. *)
Lemma set_tag_unknown name v w :
  name ∉ tag_names →
  set_tag name v w = (inl (ValueError (lit "Unknown tag: " ++ name)), w).
Proof.
  intros Hn. unfold set_tag.
  assert (dict_get set_tag_map name = None) as ->
    by (apply dict_get_None; by rewrite set_tag_map_keys).
  done.
Qed.

(** ** More on [set_tag] *)

(** X1: after [set_tag name v] for one of the six names, the frame of that
    name is in the tag exactly when [v] has a non-blank character: a
    blank value leaves no frame behind, not an empty one. *)
Theorem set_tag_presence (name v key : str) (w : World) :
  dict_get get_tag_map name = Some key →
  is_Some (tags (self (snd (set_tag name v w))) !! key)
  ↔ truthy (strip v) = true.
Proof.
  intros Hg.
  assert (name ∈ tag_names) as Hin.
  { rewrite <- get_tag_map_keys.
    destruct (decide (name ∈ get_tag_map.*1)) as [|Hn]; [done|].
    apply dict_get_None in Hn. congruence. }
  destruct (tag_maps_agree name Hin) as (cls & key' & Hc & Hg' & Hk).
  assert (key' = key) as -> by congruence.
  rewrite (set_tag_key name cls key v w Hc Hk). cbn [snd self tags].
  destruct (truthy (strip v)).
  - rewrite lookup_insert_eq. split; eauto.
  - rewrite lookup_delete_eq. split; [by intros [? ?]|done].
Qed.

Lemma set_tag_presence_witness :
  dict_get get_tag_map (lit "title") = Some (lit "TIT2") ∧
  (is_Some (tags (self (snd (set_tag (lit "title") (lit "   ") my_song))) !! lit "TIT2")
   ↔ truthy (strip (lit "   ")) = true).
Proof.
  split; [reflexivity|].
  apply (set_tag_presence (lit "title") (lit "   ") (lit "TIT2") my_song).
  reflexivity.
Defined.

(** X2: two [set_tag] calls for the same name leave the state the second
    call alone would leave: the last value wins and nothing of the first
    remains. *)
Theorem set_tag_last_wins (name v1 v2 : str) (w : World) :
  (set_tag name v1;; set_tag name v2) w = set_tag name v2 w.
Proof.
  destruct (decide (name ∈ tag_names)) as [Hin|Hn].
  - destruct (tag_maps_agree name Hin) as (cls & key & Hc & Hg & Hk).
    unfold mbind, M_bind, bind.
    rewrite (set_tag_key name cls key v1 w Hc Hk).
    rewrite !(set_tag_key name cls key v2 _ Hc Hk). cbn [self tags disk file_path].
    do 3 f_equal.
    destruct (truthy (strip v1)), (truthy (strip v2));
      by rewrite ?insert_insert_eq, ?insert_delete_eq, ?delete_insert_eq,
                 ?delete_delete_eq.
  - unfold mbind, M_bind, bind.
    by rewrite !set_tag_unknown.
Qed.

(** X3: [set_tag] calls for two different names among the six can be
    made in either order: the resulting state is the same. *)
Theorem set_tag_commute (a b va vb : str) (w : World) :
  a ∈ tag_names → b ∈ tag_names → a ≠ b →
  (set_tag a va;; set_tag b vb) w = (set_tag b vb;; set_tag a va) w.
Proof.
  intros Ha Hb Hne.
  destruct (tag_maps_agree a Ha) as (ca & ka & Hca & Hga & Hka).
  destruct (tag_maps_agree b Hb) as (cb & kb & Hcb & Hgb & Hkb).
  pose proof (get_tag_map_inj a b ka kb Hga Hgb Hne) as Hkey.
  unfold mbind, M_bind, bind.
  rewrite (set_tag_key a ca ka va w Hca Hka), (set_tag_key b cb kb vb w Hcb Hkb).
  rewrite (set_tag_key b cb kb vb _ Hcb Hkb), (set_tag_key a ca ka va _ Hca Hka).
  cbn [self tags disk file_path]. do 3 f_equal.
  destruct (truthy (strip va)), (truthy (strip vb)).
  - by apply insert_insert_ne.
  - by rewrite delete_insert_ne.
  - by rewrite delete_insert_ne.
  - apply delete_delete.
Qed.

Lemma set_tag_commute_witness :
  (set_tag (lit "artist") (lit "A");; set_tag (lit "comment") []) my_song
  = (set_tag (lit "comment") [];; set_tag (lit "artist") (lit "A")) my_song.
Proof.
  apply (set_tag_commute (lit "artist") (lit "comment") (lit "A") [] my_song).
  - by apply in_tag_names.
  - by apply in_tag_names.
  - apply (bool_decide_eq_false_1 (lit "artist" = lit "comment")). reflexivity.
Defined.

(** X4: [set_tag] touches one frame of the tag in memory and nothing
    else: the path of the object and the disk are as they were, and so is
    every frame under a key other than the one of the name, such as a
    frame the program has no name for. *)
Theorem set_tag_frame_only (name v k : str) (w : World) :
  dict_get get_tag_map name ≠ Some k →
  let w' := snd (set_tag name v w) in
  tags (self w') !! k = tags (self w) !! k ∧
  file_path (self w') = file_path (self w) ∧
  disk w' = disk w.
Proof.
  intros Hk. destruct (decide (name ∈ tag_names)) as [Hin|Hn].
  - destruct (tag_maps_agree name Hin) as (cls & key & Hc & Hg & Hkey).
    assert (key ≠ k) as Hne by congruence.
    rewrite (set_tag_key name cls key v w Hc Hkey). cbn [snd self tags disk file_path].
    split; [|done].
    destruct (truthy (strip v)); by rewrite ?lookup_insert_ne, ?lookup_delete_ne.
  - by rewrite set_tag_unknown.
Qed.

Lemma set_tag_frame_only_witness :
  let w := {| self := {| file_path := lit "a.mp3";
                         tags := {[ lit "TALB" := TextFrame (lit "TALB") 3 [lit "LP"] ]} |};
              disk := ∅ |} in
  let w' := snd (set_tag (lit "title") (lit "T") w) in
  tags (self w') !! lit "TALB" = tags (self w) !! lit "TALB" ∧
  file_path (self w') = file_path (self w) ∧
  disk w' = disk w.
Proof.
  intros w.
  apply (set_tag_frame_only (lit "title") (lit "T") (lit "TALB") w).
  apply (bool_decide_eq_false_1
           (dict_get get_tag_map (lit "title") = Some (lit "TALB"))).
  reflexivity.
Defined.

(** ** [save] *)




(** ** More on [save_as_new_file] *)



(** X7: a title that starts with a slash makes either [save_as_new_file]
    drop the directory: the file is written at the title followed by the
    constant suffix, wherever the caller asked for it. *)
Theorem save_as_new_file_absolute_title
    (dir : str) (w : World) (p : str) (w' : World) (t : str) :
  saved_as dir w p w' →
  fst (get_tag (lit "title") w) = inr (PosixPath.sep :: t) →
  p = (PosixPath.sep :: t) ++ name_suffix.
Proof.
  intros Hs Ht. apply get_title_inv in Ht.
  destruct (saved_as_path dir w p w' Hs) as (f & _ & -> & _ & _).
  unfold filename_of. rewrite Ht. cbn [truthy].
  unfold PosixPath.join. cbn [app PosixPath.isabs].
  by rewrite N.eqb_refl.
Qed.

Lemma save_as_new_file_absolute_title_witness :
  let tg := {[ lit "TIT2" := TextFrame (lit "TIT2") 3 [lit "/tmp/x"] ]} in
  let w := {| self := {| file_path := lit "/music/in.mp3"; tags := tg |};
              disk := {[ lit "/music/in.mp3" := {| audio := [1]; id3 := Block tg |} ]} |} in
  let p := lit "/tmp/x" ++ name_suffix in
  saved_as (lit "/out") w p (with_new_file w p {| audio := [1]; id3 := Block tg |}) ∧
  p = (PosixPath.sep :: lit "tmp/x") ++ name_suffix.
Proof.
  intros tg w p.
  assert (saved_as (lit "/out") w p (with_new_file w p {| audio := [1]; id3 := Block tg |}))
    as Hs.
  { left. exists (Some (lit "/out")). split; vm_compute; reflexivity. }
  split; [exact Hs|].
  apply (save_as_new_file_absolute_title (lit "/out") w p _ (lit "tmp/x") Hs).
  reflexivity.
Defined.

(** X8: the copy of [save_as_new_file] in [app.py] looks at the
    directory part of its argument only; whenever that part is not
    empty it does what the copy in [mp3_tagger.py] does for that
    directory. *)
Theorem app_save_as_new_file_agrees (output_path : str) (w : World) :
  PosixPath.dirname output_path ≠ [] →
  App.save_as_new_file output_path w
  = save_as_new_file (Some (PosixPath.dirname output_path)) w.
Proof.
  intros Hd. rewrite app_save_as_new_file_run, save_as_new_file_run.
  unfold target_dir. cbn [truthy_opt default].
  by destruct (PosixPath.dirname output_path).
Qed.

Lemma app_save_as_new_file_agrees_witness :
  App.save_as_new_file (lit "/tmp/up/output.mp3") my_song
  = save_as_new_file (Some (PosixPath.dirname (lit "/tmp/up/output.mp3"))) my_song.
Proof.
  apply (app_save_as_new_file_agrees (lit "/tmp/up/output.mp3") my_song).
  apply (bool_decide_eq_false_1 (PosixPath.dirname (lit "/tmp/up/output.mp3") = [])).
  reflexivity.
Defined.

(** X9: a call of [save_as_new_file] that returned can be repeated: the
    second call returns the same path and leaves the world the first
    call left. *)
Theorem save_as_new_file_again (od : option str) (w : World) (p : str) (w' : World) :
  save_as_new_file od w = (inr p, w') →
  save_as_new_file od w' = (inr p, w').
Proof.
  intros Hsave.
  destruct (save_as_new_file_ok od w p w' Hsave) as (f & Hf & Hp & Hne & ->).
  rewrite save_as_new_file_run. cbn zeta.
  assert (filename_of (with_new_file w p f) = filename_of w) as -> by done.
  assert (target_dir od (with_new_file w p f) = target_dir od w) as -> by done.
  rewrite <- Hp. cbn [with_new_file self disk].
  rewrite lookup_insert_ne by done. rewrite Hf.
  rewrite bool_decide_eq_false_2 by done.
  unfold with_new_file. cbn [self disk]. by rewrite insert_insert_eq.
Qed.

Lemma save_as_new_file_again_witness :
  let p := lit "/out/My Song" ++ name_suffix in
  let w' := with_new_file my_song p {| audio := [0xFF; 0xFB]; id3 := Block my_song_tags |} in
  save_as_new_file (Some (lit "/out")) my_song = (inr p, w') ∧
  save_as_new_file (Some (lit "/out")) w' = (inr p, w').
Proof.
  intros p w'.
  assert (save_as_new_file (Some (lit "/out")) my_song = (inr p, w')) as H
    by (vm_compute; reflexivity).
  split; [exact H|].
  exact (save_as_new_file_again (Some (lit "/out")) my_song p w' H).
Defined.

(** [set_tag] followed by [get_tag], as one state after the other. *)
Lemma set_then_get_aux name v w :
  name ∈ tag_names →
  fst (get_tag name (snd (set_tag name v w)))
  = inr (if truthy (strip v) then v else []).
Proof.
  intros Hin. destruct (tag_maps_agree name Hin) as (cls & key & Hc & Hg & Hk).
  rewrite (set_tag_key name cls key v w Hc Hk), (get_tag_key name key _ Hg).
  simpl. destruct (truthy (strip v)).
  - by rewrite lookup_insert_eq; simpl; rewrite frame_str_stored.
  - by rewrite lookup_delete_eq.
Qed.

(** ** Stripping twice *)

Lemma lstrip_if_fixed P s :
  (∀ c t, s = c :: t → P c = false) → lstrip_if P s = s.
Proof.
  destruct s as [|c t]; [done|]. intros H. simpl. by rewrite (H c t).
Qed.

Lemma lstrip_if_idemp P s : lstrip_if P (lstrip_if P s) = lstrip_if P s.
Proof.
  apply lstrip_if_fixed. intros c t H. by apply lstrip_if_head in H.
Qed.

Lemma lstrip_if_snoc P s c :
  P c = false → lstrip_if P (s ++ [c]) = lstrip_if P s ++ [c].
Proof.
  intros Hc. induction s as [|a s IH]; simpl.
  - by rewrite Hc.
  - by destruct (P a).
Qed.

(** Stripping the end keeps a first character that is not stripped. *)
Lemma rstrip_if_cons P c s :
  P c = false → rstrip_if P (c :: s) = c :: rstrip_if P s.
Proof.
  intros Hc. unfold rstrip_if. simpl.
  by rewrite lstrip_if_snoc, rev_app_distr.
Qed.

Lemma rstrip_if_idemp P s : rstrip_if P (rstrip_if P s) = rstrip_if P s.
Proof.
  unfold rstrip_if. by rewrite rev_involutive, lstrip_if_idemp.
Qed.

(** [s.strip().strip()] is [s.strip()]. *)
Lemma strip_idemp s : strip (strip s) = strip s.
Proof.
  unfold strip.
  assert (lstrip_if isspace (rstrip_if isspace (lstrip_if isspace s))
          = rstrip_if isspace (lstrip_if isspace s)) as ->.
  { destruct (lstrip_if isspace s) as [|c t] eqn:Hl; [done|].
    apply lstrip_if_head in Hl.
    rewrite rstrip_if_cons by done. simpl. by rewrite Hl. }
  apply rstrip_if_idemp.
Qed.

(** ** The command-line program *)

Section CliProofs.
Import Cli.

Ltac io_unfold :=
  unfold mbind, IO_bind, io_bind, mret, IO_ret, io_ret, io_raise,
    print, write, input, call.

(** The run of [edit_tag] on one line of input. *)
Lemma edit_tag_run
    (name display line : str) (rest : list str) (w : World) (written : list out) :
  name ∈ tag_names →
  ∃ old w',
    get_tag name w = (inr old, w) ∧
    set_tag name (strip line) w = (inr tt, w') ∧
    edit_tag name display {| world := w; stdin := line :: rest; stdout := written |}
    = (inr tt,
       {| world := w'; stdin := rest;
          stdout := written ++
            [ Print (lit "Current " ++ display ++ lit ": " ++ old);
              Prompt (lit "Enter new " ++ display ++ lit " (leave empty to remove): ");
              Print (if truthy (strip line)
                     then display ++ lit " updated to: " ++ strip line
                     else display ++ lit " removed");
              Print [] ] |}).
Proof.
  intros Hin.
  destruct (tag_maps_agree name Hin) as (cls & key & Hc & Hg & Hk).
  pose proof (get_tag_key name key w Hg) as Hold.
  pose proof (set_tag_key name cls key (strip line) w Hc Hk) as Hset.
  eexists _, _. split; [exact Hold|]. split; [exact Hset|].
  unfold edit_tag. io_unfold. cbn [world stdin stdout].
  rewrite Hold. cbn [world stdin stdout]. rewrite Hset.
  destruct (truthy (strip line)); cbn [world stdin stdout];
    by rewrite <- !app_assoc.
Qed.

(** X10: [edit_tag] for one of the six names reads one line, stores it
    stripped of its surrounding whitespace (or removes the frame when the
    line is blank), so that [get_tag] afterwards returns the stripped
    line; it prints the old value, the prompt, what it did, and an empty
    line. *)
Theorem edit_tag_stores_stripped
    (name display line : str) (rest : list str) (w : World) (written : list out) :
  name ∈ tag_names →
  ∃ old w',
    get_tag name w = (inr old, w) ∧
    set_tag name (strip line) w = (inr tt, w') ∧
    fst (get_tag name w') = inr (strip line) ∧
    edit_tag name display {| world := w; stdin := line :: rest; stdout := written |}
    = (inr tt,
       {| world := w'; stdin := rest;
          stdout := written ++
            [ Print (lit "Current " ++ display ++ lit ": " ++ old);
              Prompt (lit "Enter new " ++ display ++ lit " (leave empty to remove): ");
              Print (if truthy (strip line)
                     then display ++ lit " updated to: " ++ strip line
                     else display ++ lit " removed");
              Print [] ] |}).
Proof.
  intros Hin.
  destruct (edit_tag_run name display line rest w written Hin)
    as (old & w' & Hold & Hset & Hrun).
  exists old, w'. split; [exact Hold|]. split; [exact Hset|]. split; [|exact Hrun].
  pose proof (set_then_get_aux name (strip line) w Hin) as Hget.
  rewrite Hset, strip_idemp in Hget. cbn [snd] in Hget. rewrite Hget.
  by destruct (strip line).
Qed.

Lemma edit_tag_stores_stripped_witness :
  ∃ old w',
    get_tag (lit "title") my_song = (inr old, my_song) ∧
    set_tag (lit "title") (strip (lit "  Hi  ")) my_song = (inr tt, w') ∧
    fst (get_tag (lit "title") w') = inr (strip (lit "  Hi  ")) ∧
    edit_tag (lit "title") (lit "Title")
      {| world := my_song; stdin := [lit "  Hi  "; lit "8"]; stdout := [] |}
    = (inr tt,
       {| world := w'; stdin := [lit "8"];
          stdout := [] ++
            [ Print (lit "Current " ++ lit "Title" ++ lit ": " ++ old);
              Prompt (lit "Enter new " ++ lit "Title" ++ lit " (leave empty to remove): ");
              Print (if truthy (strip (lit "  Hi  "))
                     then lit "Title" ++ lit " updated to: " ++ strip (lit "  Hi  ")
                     else lit "Title" ++ lit " removed");
              Print [] ] |}).
Proof.
  apply (edit_tag_stores_stripped (lit "title") (lit "Title") (lit "  Hi  ")
           [lit "8"] my_song []).
  by apply in_tag_names.
Defined.

(** X11: [edit_tag] changes nothing unless it gets a line for a name it
    knows: for a name outside the six it raises [ValueError] before it
    prints or reads anything, and at the end of the input it raises
    [EOFError] with the tags untouched. *)
Theorem edit_tag_no_change (name display : str) (env : Env) :
  (name ∉ tag_names →
     edit_tag name display env
     = (inl (Raised (ValueError (lit "Unknown tag: " ++ name))), env)) ∧
  (name ∈ tag_names → stdin env = [] →
     ∃ env', edit_tag name display env = (inl EOFError, env') ∧
             world env' = world env).
Proof.
  split.
  - intros Hn. unfold edit_tag. io_unfold.
    assert (get_tag name (world env)
            = (inl (ValueError (lit "Unknown tag: " ++ name)), world env)) as ->.
    { unfold get_tag.
      assert (dict_get get_tag_map name = None) as ->
        by (apply dict_get_None; by rewrite get_tag_map_keys).
      done. }
    by destruct env.
  - intros Hin Hnil.
    destruct (tag_maps_agree name Hin) as (cls & key & Hc & Hg & Hk).
    unfold edit_tag. io_unfold. rewrite (get_tag_key name key _ Hg).
    cbn [world stdin stdout]. rewrite Hnil. eauto.
Qed.

Lemma edit_tag_no_change_witness :
  let env := {| world := my_song; stdin := []; stdout := [] |} in
  edit_tag (lit "album") (lit "Album") env
  = (inl (Raised (ValueError (lit "Unknown tag: " ++ lit "album"))), env) ∧
  ∃ env', edit_tag (lit "title") (lit "Title") env = (inl EOFError, env') ∧
          world env' = world env.
Proof.
  intros env. split.
  - apply (edit_tag_no_change (lit "album") (lit "Album") env).
    by apply not_in_tag_names.
  - apply (edit_tag_no_change (lit "title") (lit "Title") env).
    + by apply in_tag_names.
    + reflexivity.
Defined.

(** The loop of [get_user_choice] over lines that are no choice. *)
Lemma get_user_choice_loop_skip fuel skipped w tail written :
  Forall (λ l, strip l ∉ choices) skipped →
  (length skipped < fuel)%nat →
  ∃ fuel',
    (fuel = length skipped + S fuel')%nat ∧
    get_user_choice_loop fuel
      {| world := w; stdin := skipped ++ tail; stdout := written |}
    = get_user_choice_loop (S fuel')
      {| world := w; stdin := tail;
         stdout := written ++ flat_map (λ _, [ask; invalid]) skipped |}.
Proof.
  intros Hsk. revert fuel written.
  induction Hsk as [|l skipped Hl Hsk IH]; intros fuel written Hfuel.
  - destruct fuel as [|fuel']; [cbn in Hfuel; lia|].
    exists fuel'. split; [done|]. cbn [app flat_map]. by rewrite app_nil_r.
  - destruct fuel as [|fuel]; [cbn in Hfuel; lia|].
    destruct (IH fuel (written ++ [ask; invalid])) as (fuel' & -> & Heq).
    { cbn in Hfuel. lia. }
    exists fuel'. split; [done|].
    cbn [get_user_choice_loop length Nat.add app]. io_unfold. cbn [world stdin stdout].
    rewrite bool_decide_eq_false_2 by done. cbn [world stdin stdout].
    rewrite <- app_assoc. cbn [app]. unfold ask, invalid in *. rewrite Heq.
    cbn [flat_map]. by rewrite <- app_assoc.
Qed.

(** X12: [get_user_choice] prints the menu, skips every line that is not
    one of [1] to [8] once stripped, answering each with
    [Invalid choice], and returns the first line that is, stripped; the
    object and the disk are not touched.  When no line qualifies it stops
    with [EOFError] after reading them all. *)
Theorem get_user_choice_first_valid
    (fuel : nat) (skipped : list str) (w : World) (written : list out) :
  Forall (λ l, strip l ∉ choices) skipped →
  (length skipped < fuel)%nat →
  (∀ line rest, strip line ∈ choices →
     get_user_choice fuel
       {| world := w; stdin := skipped ++ line :: rest; stdout := written |}
     = (inr (strip line),
        {| world := w; stdin := rest;
           stdout := written ++ menu
                       ++ flat_map (λ _, [ask; invalid]) skipped ++ [ask] |})) ∧
  get_user_choice fuel {| world := w; stdin := skipped; stdout := written |}
  = (inl EOFError,
     {| world := w; stdin := [];
        stdout := written ++ menu
                    ++ flat_map (λ _, [ask; invalid]) skipped ++ [ask] |}).
Proof.
  intros Hsk Hfuel.
  assert (∀ tail,
    get_user_choice fuel {| world := w; stdin := skipped ++ tail; stdout := written |}
    = get_user_choice_loop (S (fuel - S (length skipped)))
        {| world := w; stdin := tail;
           stdout := written ++ menu ++ flat_map (λ _, [ask; invalid]) skipped |})
    as Hrun.
  { intros tail.
    destruct (get_user_choice_loop_skip fuel skipped w tail (written ++ menu) Hsk Hfuel)
      as (fuel' & Hf & Heq).
    replace (fuel - S (length skipped))%nat with fuel' by lia.
    rewrite <- app_assoc in Heq. rewrite <- Heq.
    unfold get_user_choice. io_unfold. cbn [world stdin stdout].
    by rewrite <- !app_assoc. }
  split.
  - intros line rest Hline. rewrite Hrun.
    cbn [get_user_choice_loop]. io_unfold. cbn [world stdin stdout].
    rewrite bool_decide_eq_true_2 by done. by rewrite <- !app_assoc.
  - rewrite <- (app_nil_r skipped) at 1. rewrite Hrun.
    cbn [get_user_choice_loop]. io_unfold. cbn [world stdin stdout].
    by rewrite <- !app_assoc.
Qed.

Lemma get_user_choice_first_valid_witness :
  (∀ line rest, strip line ∈ choices →
     get_user_choice 3
       {| world := my_song; stdin := [lit "x"; lit "9"] ++ line :: rest; stdout := [] |}
     = (inr (strip line),
        {| world := my_song; stdin := rest;
           stdout := [] ++ menu
                       ++ flat_map (λ _, [ask; invalid]) [lit "x"; lit "9"] ++ [ask] |})) ∧
  get_user_choice 3 {| world := my_song; stdin := [lit "x"; lit "9"]; stdout := [] |}
  = (inl EOFError,
     {| world := my_song; stdin := [];
        stdout := [] ++ menu
                    ++ flat_map (λ _, [ask; invalid]) [lit "x"; lit "9"] ++ [ask] |}).
Proof.
  apply (get_user_choice_first_valid 3 [lit "x"; lit "9"] my_song []).
  - apply (bool_decide_unpack _). reflexivity.
  - apply (bool_decide_unpack _). reflexivity.
Defined.


Lemma get_tag_value name w :
  name ∈ tag_names → ∃ v, get_tag name w = (inr v, w).
Proof.
  intros Hin. destruct (tag_maps_agree name Hin) as (cls & key & _ & Hg & _).
  rewrite (get_tag_key name key w Hg). eauto.
Qed.

Lemma py_or_strip_shown v d :
  d ≠ [] → strip d = d →
  py_or (strip v) d ≠ [] ∧ strip (py_or (strip v) d) = py_or (strip v) d.
Proof.
  intros Hd Hs. unfold py_or. destruct (strip v) as [|c t] eqn:Hv; cbn [truthy].
  - done.
  - split; [done|]. rewrite <- Hv. apply strip_idemp.
Qed.

(** X13: the four fields of the song info are the title, artist,
    lyricist and composer tags stripped of surrounding whitespace, each
    replaced by its fallback ([Untitled], [Unknown Artist], [Unknown],
    [Unknown]) when the tag is blank; so no field shown is empty or has
    whitespace around it, and reading them changes nothing. *)
Theorem song_fields_never_blank (w : World) :
  ∃ t a l c,
    get_tag (lit "title") w = (inr t, w) ∧
    get_tag (lit "artist") w = (inr a, w) ∧
    get_tag (lit "lyricist") w = (inr l, w) ∧
    get_tag (lit "composer") w = (inr c, w) ∧
    song_fields w
    = (inr (py_or (strip t) (lit "Untitled"),
            py_or (strip a) (lit "Unknown Artist"),
            py_or (strip l) (lit "Unknown"),
            py_or (strip c) (lit "Unknown")), w) ∧
    Forall (λ s, s ≠ [] ∧ strip s = s)
      [ py_or (strip t) (lit "Untitled");
        py_or (strip a) (lit "Unknown Artist");
        py_or (strip l) (lit "Unknown");
        py_or (strip c) (lit "Unknown") ] ∧
    ∀ lines written,
      copy_song_info {| world := w; stdin := lines; stdout := written |}
      = (inr tt,
         {| world := w; stdin := lines;
            stdout := written ++
              [ Print ([0x0A] ++ repeat 0x3D 50);
                Print (lit "SONG INFO (Copy and paste this text):");
                Print (repeat 0x3D 50);
                Print (song_info (py_or (strip t) (lit "Untitled"))
                                 (py_or (strip a) (lit "Unknown Artist"))
                                 (py_or (strip l) (lit "Unknown"))
                                 (py_or (strip c) (lit "Unknown")));
                Print (repeat 0x3D 50 ++ [0x0A]) ] |}).
Proof.
  destruct (get_tag_value (lit "title") w) as [t Ht]; [by apply in_tag_names|].
  destruct (get_tag_value (lit "artist") w) as [a Ha]; [by apply in_tag_names|].
  destruct (get_tag_value (lit "lyricist") w) as [l Hl]; [by apply in_tag_names|].
  destruct (get_tag_value (lit "composer") w) as [c Hc]; [by apply in_tag_names|].
  assert (song_fields w
          = (inr (py_or (strip t) (lit "Untitled"),
                  py_or (strip a) (lit "Unknown Artist"),
                  py_or (strip l) (lit "Unknown"),
                  py_or (strip c) (lit "Unknown")), w)) as Hf.
  { unfold song_fields, mbind, M_bind, bind. by rewrite Ht, Ha, Hl, Hc. }
  exists t, a, l, c. do 5 (split; [done|]). split.
  - repeat (apply Forall_cons; split; [by apply py_or_strip_shown|]).
    apply Forall_nil_2.
  - intros lines written. unfold copy_song_info. io_unfold.
    cbn [world stdin stdout]. rewrite Hf. cbn [world stdin stdout].
    by rewrite <- !app_assoc.
Qed.

Ltac lit_ne :=
  match goal with
  | |- ?a ≠ ?b => apply (bool_decide_eq_false_1 (a = b)); reflexivity
  end.

(** The state after the branch has set the copyright, when it was blank,
    and the comment. *)
Lemma save_new_file_tags w cur :
  fst (get_tag (lit "copyright") w) = inr cur →
  ∃ w1 w2,
    (if negb (truthy (strip cur))
     then set_tag (lit "copyright") default_copyright w = (inr tt, w1)
     else w1 = w) ∧
    set_tag (lit "comment") cli_comment w1 = (inr tt, w2) ∧
    file_path (self w2) = file_path (self w) ∧
    disk w2 = disk w ∧
    fst (get_tag (lit "comment") w2) = inr cli_comment ∧
    fst (get_tag (lit "copyright") w2)
    = inr (if truthy (strip cur) then cur else default_copyright) ∧
    (∀ k, k ≠ lit "TCOP" → k ≠ lit "COMM::eng" →
       tags (self w2) !! k = tags (self w) !! k).
Proof.
  intros Hcur.
  rewrite (get_tag_key (lit "copyright") (lit "TCOP")) in Hcur by reflexivity.
  cbn [fst] in Hcur. injection Hcur as Hcur.
  pose proof (λ w, set_tag_key (lit "copyright") TCOP (lit "TCOP") default_copyright w
                     eq_refl eq_refl) as Hcopy.
  pose proof (λ w, set_tag_key (lit "comment") COMM (lit "COMM::eng") cli_comment w
                     eq_refl eq_refl) as Hcomm.
  change (truthy (strip default_copyright)) with true in Hcopy.
  change (truthy (strip cli_comment)) with true in Hcomm.
  destruct (truthy (strip cur)) eqn:Hblank; cbn [negb].
  - eexists _, _. split; [reflexivity|]. split; [apply Hcomm|].
    cbn [self disk tags file_path].
    do 2 (split; [done|]).
    rewrite !(get_tag_key (lit "comment") (lit "COMM::eng")) by reflexivity.
    rewrite !(get_tag_key (lit "copyright") (lit "TCOP")) by reflexivity.
    cbn [fst self tags]. rewrite lookup_insert_eq, lookup_insert_ne by lit_ne.
    cbn [from_option]. rewrite frame_str_stored, Hcur.
    do 2 (split; [done|]). intros k _ Hk. by rewrite lookup_insert_ne.
  - eexists _, _. split; [apply Hcopy|]. split; [apply Hcomm|].
    cbn [self disk tags file_path].
    do 2 (split; [done|]).
    rewrite !(get_tag_key (lit "comment") (lit "COMM::eng")) by reflexivity.
    rewrite !(get_tag_key (lit "copyright") (lit "TCOP")) by reflexivity.
    cbn [fst self tags].
    rewrite lookup_insert_eq, lookup_insert_ne by lit_ne. rewrite lookup_insert_eq.
    cbn [from_option]. rewrite !frame_str_stored.
    do 2 (split; [done|]). intros k Hk1 Hk2. by rewrite !lookup_insert_ne.
Qed.

(** The run of the branch that saves a new file: what it returns and the
    state it leaves, with [w2] the object after its two updates. *)
Lemma save_new_file_run (env : Env) :
  let w := world env in
  let p := PosixPath.join (PosixPath.dirname (file_path (self w))) (filename_of w) in
  ∃ cur w2,
    get_tag (lit "copyright") w = (inr cur, w) ∧
    file_path (self w2) = file_path (self w) ∧
    disk w2 = disk w ∧
    fst (get_tag (lit "comment") w2) = inr cli_comment ∧
    fst (get_tag (lit "copyright") w2)
    = inr (if truthy (strip cur) then cur else default_copyright) ∧
    (∀ k, k ≠ lit "TCOP" → k ≠ lit "COMM::eng" →
       tags (self w2) !! k = tags (self w) !! k) ∧
    save_new_file env
    = (inr tt,
       match disk w !! file_path (self w) with
       | Some f =>
           if bool_decide (file_path (self w) = p)
           then {| world := w2; stdin := stdin env;
                   stdout := stdout env ++
                     [ PrintError (lit "Error creating new file: ") SameFileError;
                       Print [] ] |}
           else {| world := with_new_file w2 p f; stdin := stdin env;
                   stdout := stdout env ++
                     [ Print (lit "New file created: " ++ PosixPath.basename p);
                       Print (lit "All tags have been applied to the new file.");
                       Print [] ] |}
       | None =>
           {| world := w2; stdin := stdin env;
              stdout := stdout env ++
                [ PrintError (lit "Error creating new file: ")
                    (FileNotFoundError (file_path (self w)));
                  Print [] ] |}
       end).
Proof.
  intros w p.
  destruct (get_tag_value (lit "copyright") w) as [cur Hget]; [by apply in_tag_names|].
  destruct (save_new_file_tags w cur) as
    (w1 & w2 & H1 & H2 & Hpath & Hdisk & Hcomm & Hcopy & Hother);
    [by rewrite Hget|].
  assert (filename_of w2 = filename_of w) as Hname.
  { unfold filename_of, title_of. by rewrite Hother by lit_ne. }
  pose proof (save_as_new_file_run None w2) as Hrun. cbn zeta in Hrun.
  unfold target_dir in Hrun. cbn [truthy_opt] in Hrun.
  rewrite Hname, Hpath, Hdisk in Hrun. fold w p in Hrun.
  exists cur, w2. do 6 (split; [done|]).
  unfold save_new_file, try_except. io_unfold. fold w.
  rewrite Hget. cbn [world stdin stdout].
  assert (∀ i o,
    (if negb (truthy (strip cur))
     then λ env0 : Env,
        let (r, w') := set_tag (lit "copyright") default_copyright (world env0) in
        (match r with inl e => inl (Raised e) | inr a => inr a end,
         {| world := w'; stdin := stdin env0; stdout := stdout env0 |})
     else λ env0 : Env, (inr tt, env0))
      {| world := w; stdin := i; stdout := o |}
    = (inr tt, {| world := w1; stdin := i; stdout := o |})) as Hstep.
  { intros i o. destruct (negb (truthy (strip cur))).
    - cbn [world stdin stdout]. by rewrite H1.
    - by subst w1. }
  rewrite Hstep. cbn [world stdin stdout]. rewrite H2. cbn [world stdin stdout].
  rewrite Hrun.
  destruct (disk w !! file_path (self w)) as [f|]; [case_bool_decide|];
    cbn [world stdin stdout]; by rewrite <- !app_assoc.
Qed.


(** *** The loop of [main] *)

Lemma harmless_ret path f : harmless path f (mret tt).
Proof.
  intros env Hk. exists (inr tt), env. split; [reflexivity|].
  split; [by left|]. by split.
Qed.

Lemma io_bind_assoc (a b k : IO unit) env :
  (a;; b;; k) env = ((a;; b);; k) env.
Proof.
  unfold mbind, IO_bind, io_bind. destruct (a env) as [[?|?] ?]; [done|].
  by destruct (b _) as [[?|?] ?].
Qed.

(** [get_all_tags] returns and leaves the world as it is. *)
Lemma get_all_tags_run w : ∃ d, get_all_tags w = (inr d, w).
Proof.
  unfold get_all_tags, mbind, M_bind, bind.
  destruct (get_tag_value (lit "title") w) as [s1 ->]; [by apply in_tag_names|].
  destruct (get_tag_value (lit "artist") w) as [s2 ->]; [by apply in_tag_names|].
  destruct (get_tag_value (lit "lyricist") w) as [s3 ->]; [by apply in_tag_names|].
  destruct (get_tag_value (lit "composer") w) as [s4 ->]; [by apply in_tag_names|].
  destruct (get_tag_value (lit "copyright") w) as [s5 ->]; [by apply in_tag_names|].
  destruct (get_tag_value (lit "comment") w) as [s6 ->]; [by apply in_tag_names|].
  eauto.
Qed.

Lemma harmless_write path f o : harmless path f (write o).
Proof.
  intros env Hk. eexists (inr tt), _. split; [reflexivity|].
  split; [by left|]. by split.
Qed.

Lemma harmless_bind path f (a b : IO unit) :
  harmless path f a → harmless path f b → harmless path f (a;; b).
Proof.
  intros Ha Hb env Hk.
  destruct (Ha env Hk) as (r & env1 & Hrun & [-> | ->] & Hk1 & Hlen).
  - destruct (Hb env1 Hk1) as (r2 & env2 & Hrun2 & Hr2 & Hk2 & Hlen2).
    exists r2, env2. unfold mbind, IO_bind, io_bind. rewrite Hrun, Hrun2.
    split; [done|]. split; [done|]. split; [done|]. lia.
  - exists (inl EOFError), env1. unfold mbind, IO_bind, io_bind. rewrite Hrun.
    split; [done|]. split; [by right|]. by split.
Qed.

Lemma harmless_for_each {A} path f (l : list A) (g : A → IO unit) :
  (∀ x, harmless path f (g x)) → harmless path f (for_each l g).
Proof.
  intros Hg. induction l as [|x l IH]; cbn [for_each].
  - apply harmless_ret.
  - by apply harmless_bind.
Qed.

(** A method call that returns and leaves the world as it is. *)
Lemma harmless_read {A} path f (m : M A) (k : A → IO unit) :
  (∀ w, ∃ a, m w = (inr a, w)) →
  (∀ a, harmless path f (k a)) →
  harmless path f (call m ≫= k).
Proof.
  intros Hm Hk env Hs. destruct (Hm (world env)) as [a Ha].
  destruct (Hk a env Hs) as (r & env' & Hrun & Hr & Hs' & Hlen).
  exists r, env'. unfold mbind, IO_bind, io_bind, call. rewrite Ha.
  destruct env as [w i o]. cbn [world stdin stdout] in *. by rewrite Hrun.
Qed.

Lemma harmless_display_current_tags path f : harmless path f display_current_tags.
Proof.
  unfold display_current_tags. apply harmless_read; [by eexists|]. intros fp.
  do 2 (apply harmless_bind; [apply harmless_write|]).
  apply harmless_read.
  - intros w. destruct (get_all_tags_run w) as [d Hd]. eauto.
  - intros d. apply harmless_bind; [|apply harmless_write].
    apply harmless_for_each. intros _. apply harmless_write.
Qed.

Lemma harmless_copy_song_info path f : harmless path f copy_song_info.
Proof.
  unfold copy_song_info. apply harmless_read.
  - intros w.
    destruct (get_tag_value (lit "title") w) as [t Ht]; [by apply in_tag_names|].
    destruct (get_tag_value (lit "artist") w) as [a Ha]; [by apply in_tag_names|].
    destruct (get_tag_value (lit "lyricist") w) as [l Hl]; [by apply in_tag_names|].
    destruct (get_tag_value (lit "composer") w) as [c Hc]; [by apply in_tag_names|].
    eexists. unfold song_fields, mbind, M_bind, bind. by rewrite Ht, Ha, Hl, Hc.
  - intros [[[t a] l] c].
    do 4 (apply harmless_bind; [apply harmless_write|]). apply harmless_write.
Qed.

Lemma harmless_edit_tag path f name display :
  name ∈ tag_names → harmless path f (edit_tag name display).
Proof.
  intros Hin env [Hp Hd]. destruct env as [w [|line rest] o].
  - destruct (tag_maps_agree name Hin) as (cls & key & Hc & Hg & Hk).
    eexists (inl EOFError), _. split.
    + unfold edit_tag. io_unfold. rewrite (get_tag_key name key _ Hg).
      cbn [world stdin stdout]. reflexivity.
    + split; [by right|]. by split.
  - destruct (edit_tag_run name display line rest w o Hin)
      as (old & w' & _ & Hset & Hrun).
    eexists (inr tt), _. split; [exact Hrun|]. split; [by left|].
    destruct (tag_maps_agree name Hin) as (cls & key & Hc & Hg & Hk).
    rewrite (set_tag_key name cls key _ w Hc Hk) in Hset.
    injection Hset as <-. cbn [world stdin stdout] in *.
    split; [by split|]. cbn [length]. lia.
Qed.

Lemma harmless_save_new_file path f : harmless path f save_new_file.
Proof.
  intros env [Hp Hd].
  destruct (save_new_file_run env)
    as (cur & w2 & _ & Hpath & Hdisk & _ & _ & _ & Hrun).
  cbn zeta in Hrun. rewrite Hp, Hd in Hrun.
  eexists (inr tt), _. split; [exact Hrun|]. split; [by left|].
  case_bool_decide as Hsame; cbn [world stdin stdout]; (split; [|done]);
    unfold source_kept; cbn [world with_new_file self disk].
  - by rewrite Hpath, Hdisk.
  - rewrite Hpath, Hdisk. split; [done|]. by rewrite lookup_insert_ne.
Qed.

(** The branches of [main] for the eight choices. *)
Lemma harmless_branch path f (choice : str) :
  choice ∈ choices →
  harmless path f
    ((if bool_decide (choice = lit "1") then edit_tag (lit "title") (lit "Title")
      else if bool_decide (choice = lit "2") then edit_tag (lit "artist") (lit "Artist")
      else if bool_decide (choice = lit "3")
           then edit_tag (lit "lyricist") (lit "Lyricist (Author)")
      else if bool_decide (choice = lit "4") then edit_tag (lit "composer") (lit "Composer")
      else if bool_decide (choice = lit "5")
           then edit_tag (lit "copyright") (lit "Copyright")
      else if bool_decide (choice = lit "6") then copy_song_info
      else if bool_decide (choice = lit "7") then save_new_file
      else mret tt);;
     (if bool_decide (choice ∈ [lit "1"; lit "2"; lit "3"; lit "4"; lit "5"])
      then display_current_tags else mret tt)).
Proof.
  intros Hc. apply harmless_bind.
  - repeat (case_bool_decide;
            [first [ apply harmless_edit_tag; by apply in_tag_names
                   | apply harmless_copy_song_info
                   | apply harmless_save_new_file ]|]).
    apply harmless_ret.
  - case_bool_decide; [apply harmless_display_current_tags|apply harmless_ret].
Qed.

(** [get_user_choice] returns one of the eight choices, having read at
    least one line, or stops at the end of the input. *)
Lemma get_user_choice_loop_cases fuel env :
  (length (stdin env) < fuel)%nat →
  ∃ r env', get_user_choice_loop fuel env = (r, env') ∧
            world env' = world env ∧
            (r = inl EOFError ∨
             ∃ c, r = inr c ∧ c ∈ choices ∧
                  (length (stdin env') < length (stdin env))%nat).
Proof.
  revert env. induction fuel as [|fuel IH]; intros env Hlen; [lia|].
  destruct env as [w [|line rest] o]; cbn [get_user_choice_loop]; io_unfold;
    cbn [world stdin stdout length] in *.
  - eexists _, _. split; [reflexivity|]. split; [done|]. by left.
  - case_bool_decide as Hv.
    + eexists _, _. split; [reflexivity|]. split; [done|]. right.
      eexists. split; [done|]. split; [done|]. cbn [stdin length]. lia.
    + destruct (IH {| world := w; stdin := rest;
                      stdout := (o ++ [Prompt (lit "Enter your choice (1-8): ")])
                                  ++ [Print (lit "Invalid choice. Please enter 1-8.")] |})
        as (r & env' & Hrun & Hw & Hr); [cbn [stdin]; lia|].
      exists r, env'. split; [exact Hrun|]. split; [done|].
      destruct Hr as [->|(c & -> & Hc & Hl)]; [by left|right].
      exists c. repeat split; try done. cbn [stdin length] in *. lia.
Qed.

Lemma get_user_choice_cases fuel env :
  (length (stdin env) < fuel)%nat →
  ∃ r env', get_user_choice fuel env = (r, env') ∧
            world env' = world env ∧
            (r = inl EOFError ∨
             ∃ c, r = inr c ∧ c ∈ choices ∧
                  (length (stdin env') < length (stdin env))%nat).
Proof.
  intros Hlen. unfold get_user_choice. io_unfold. cbn [world stdin stdout].
  by apply (get_user_choice_loop_cases fuel
              {| world := world env; stdin := stdin env; stdout := _ |}).
Qed.

(** The loop of [main] returns, or stops at the end of the input, and
    keeps the source. *)
Lemma main_loop_safe path f fuel env :
  source_kept path f env →
  (length (stdin env) < fuel)%nat →
  ∃ r env', main_loop fuel env = (r, env') ∧
            (r = inr tt ∨ r = inl EOFError) ∧
            source_kept path f env'.
Proof.
  revert env. induction fuel as [|fuel IH]; intros env Hk Hlen; [lia|].
  cbn [main_loop].
  destruct (get_user_choice_cases (S fuel) env Hlen)
    as (r & env1 & Hrun & Hw & Hr).
  assert (source_kept path f env1) as Hk1.
  { destruct Hk. split; by rewrite Hw. }
  unfold mbind at 1. unfold IO_bind, io_bind. rewrite Hrun.
  destruct Hr as [->|(c & -> & Hc & Hl)].
  - exists (inl EOFError), env1. split; [done|]. split; [by right|done].
  - case_bool_decide as H8.
    + eexists (inr tt), _. split; [reflexivity|]. split; [by left|]. done.
    + destruct (harmless_branch path f c Hc env1 Hk1)
        as (r2 & env2 & Hrun2 & Hr2 & Hk2 & Hl2).
      rewrite io_bind_assoc. unfold mbind at 1. unfold IO_bind at 1.
      unfold io_bind at 1. rewrite Hrun2.
      destruct Hr2 as [-> | ->].
      * destruct (IH env2 Hk2) as (r3 & env3 & Hrun3 & Hr3 & Hk3); [lia|].
        exists r3, env3. by rewrite Hrun3.
      * exists (inl EOFError), env2. split; [done|]. split; [by right|done].
Qed.

Lemma harmless_print_banner path f : harmless path f print_banner.
Proof.
  unfold print_banner.
  do 3 (apply harmless_bind; [apply harmless_write|]). apply harmless_write.
Qed.

(** X15: [main] stops with exit status 1 before it reads anything or
    touches the disk when it is not given exactly one argument (it prints
    the usage line), when the file is not there (it prints
    [Error: File not found: ...]) and when the path does not end in
    [.mp3] (it prints [Error: File must be an MP3 file]). *)
Theorem main_start_errors (fuel : nat) (argv : list str) (d : gmap str File)
    (lines : list str) :
  (length argv ≠ 2%nat →
     main fuel argv d lines
     = {| ended := inl (SystemExit 1); disk_after := d; unread := lines;
          written := [Print (lit "Usage: python mp3_tagger.py <mp3_file>")] |}) ∧
  (∀ prog path, argv = [prog; path] → d !! path = None →
     main fuel argv d lines
     = {| ended := inl (SystemExit 1); disk_after := d; unread := lines;
          written := [Print (lit "Error: " ++ lit "File not found: " ++ path)] |}) ∧
  (∀ prog path, argv = [prog; path] → is_Some (d !! path) →
     has_mp3_extension path = false →
     main fuel argv d lines
     = {| ended := inl (SystemExit 1); disk_after := d; unread := lines;
          written := [Print (lit "Error: " ++ lit "File must be an MP3 file")] |}).
Proof.
  split; [|split].
  - intros Hlen. unfold main.
    destruct argv as [|a [|b [|c argv]]]; try done.
  - intros prog path -> Hn. unfold main, __init__.
    by rewrite (proj2 (exists_false d path) Hn).
  - intros prog path -> Hs Hext. unfold main, __init__.
    by rewrite (proj2 (exists_true d path) Hs), endswith_lower_mp3, Hext.
Qed.

Lemma main_start_errors_witness :
  main 5 [lit "mp3_tagger.py"] untagged_disk [lit "8"]
  = {| ended := inl (SystemExit 1); disk_after := untagged_disk; unread := [lit "8"];
       written := [Print (lit "Usage: python mp3_tagger.py <mp3_file>")] |} ∧
  main 5 [lit "mp3_tagger.py"; lit "gone.mp3"] untagged_disk [lit "8"]
  = {| ended := inl (SystemExit 1); disk_after := untagged_disk; unread := [lit "8"];
       written := [Print (lit "Error: " ++ lit "File not found: " ++ lit "gone.mp3")] |}.
Proof.
  split.
  - apply (main_start_errors 5 [lit "mp3_tagger.py"] untagged_disk [lit "8"]).
    apply (bool_decide_eq_false_1 (length [lit "mp3_tagger.py"] = 2%nat)). reflexivity.
  - apply (main_start_errors 5 [lit "mp3_tagger.py"; lit "gone.mp3"] untagged_disk
             [lit "8"]) with (prog := lit "mp3_tagger.py"); reflexivity.
Defined.

(** X16: started on a file that is on disk and ends in [.mp3], [main]
    never crashes and never loops for ever, whatever is typed: it
    returns (after the choice [8]) or stops at the end of the input.  And
    whatever was chosen on the way, the file it was started on is on disk
    exactly as it was. *)
Theorem main_keeps_source (fuel : nat) (prog path : str) (d : gmap str File)
    (f : File) (lines : list str) :
  d !! path = Some f →
  has_mp3_extension path = true →
  (length lines < fuel)%nat →
  let r := main fuel [prog; path] d lines in
  (ended r = inr tt ∨ ended r = inl EOFError) ∧
  disk_after r !! path = Some f.
Proof.
  intros Hf Hext Hlen.
  set (env0 := {| world := {| self := {| file_path := path;
                                         tags := match id3 f with
                                                 | Block frames => frames
                                                 | _ => ∅
                                                 end |};
                              disk := d |};
                  stdin := lines; stdout := [] |}).
  assert (source_kept path f env0) as Hk0 by done.
  assert (∃ r env',
            (print_banner;; display_current_tags;; main_loop fuel) env0 = (r, env') ∧
            (r = inr tt ∨ r = inl EOFError) ∧ source_kept path f env')
    as (r & env' & Hall & Hr & Hk').
  { rewrite io_bind_assoc.
    destruct (harmless_bind path f _ _ (harmless_print_banner path f)
                (harmless_display_current_tags path f) env0 Hk0)
      as (r1 & env1 & Hrun1 & Hr1 & Hk1 & Hl1).
    unfold mbind at 1. unfold IO_bind at 1. unfold io_bind at 1. rewrite Hrun1.
    destruct Hr1 as [-> | ->].
    - apply (main_loop_safe path f fuel env1 Hk1).
      cbn [stdin env0] in Hl1. lia.
    - exists (inl EOFError), env1. split; [done|]. split; [by right|done]. }
  unfold main. rewrite (init_existing d path f Hf Hext). fold env0.
  rewrite Hall. cbn [ended disk_after]. split; [done|]. by destruct Hk'.
Qed.

Lemma main_keeps_source_witness :
  let r := main 8 [lit "mp3_tagger.py"; lit "song.mp3"] untagged_disk
             [lit "1"; lit " Hi "; lit "x"; lit "7"; lit "8"] in
  (ended r = inr tt ∨ ended r = inl EOFError) ∧
  disk_after r !! lit "song.mp3"
  = Some {| audio := [0xFF; 0xFB; 0x90]; id3 := NoHeader |}.
Proof.
  apply (main_keeps_source 8 (lit "mp3_tagger.py") (lit "song.mp3") untagged_disk
           {| audio := [0xFF; 0xFB; 0x90]; id3 := NoHeader |}
           [lit "1"; lit " Hi "; lit "x"; lit "7"; lit "8"]).
  - reflexivity.
  - reflexivity.
  - apply (bool_decide_unpack _). reflexivity.
Defined.

End CliProofs.

(** ** The edit page *)

Section WebProofs.
Import Web.

Ltac lit_ne :=
  match goal with
  | |- ?a ≠ ?b => apply (bool_decide_eq_false_1 (a = b)); reflexivity
  end.

Lemma lookup_cond (b : bool) (key k : str) (x : Frame) (t : gmap str Frame) :
  (if b then <[key := x]> t else delete key t) !! k
  = if decide (key = k) then (if b then Some x else None) else t !! k.
Proof.
  destruct b; case_decide; subst;
    by rewrite ?lookup_insert_eq, ?lookup_insert_ne, ?lookup_delete_eq,
               ?lookup_delete_ne.
Qed.

(** What [get_tag] reads from a tag that a [set_tag] has just written. *)
Lemma read_cond (name : str) (cls : FrameClass) (v : str) :
  from_option frame_str []
    (if truthy (strip v) then Some (stored_frame name cls v) else None)
  = if truthy (strip v) then v else [].
Proof. destruct (truthy (strip v)); [apply frame_str_stored|done]. Qed.

Lemma posted_copyright_shown form :
  truthy (strip (posted_copyright form)) = true.
Proof.
  unfold posted_copyright.
  destruct (truthy (strip (form_get form (lit "copyright")))) eqn:H; cbn [negb].
  - by rewrite strip_idemp.
  - reflexivity.
Qed.


(** The state after the six updates of a POST. *)
Lemma update_tags_run form w :
  ∃ w', update_tags form w = (inr tt, w') ∧
        file_path (self w') = file_path (self w) ∧
        disk w' = disk w ∧
        Forall (λ name, fst (get_tag name w')
                        = inr (if truthy (strip (form_get form name))
                               then form_get form name else []))
          [lit "title"; lit "artist"; lit "lyricist"; lit "composer"] ∧
        fst (get_tag (lit "copyright") w') = inr (posted_copyright form) ∧
        fst (get_tag (lit "comment") w') = inr web_comment ∧
        (∀ k, k ∉ get_tag_map.*2 → tags (self w') !! k = tags (self w) !! k).
Proof.
  unfold update_tags. fold (posted_copyright form).
  unfold mbind, M_bind, bind.
  rewrite (set_tag_key (lit "title") TIT2 (lit "TIT2") _ _ eq_refl eq_refl).
  rewrite (set_tag_key (lit "artist") TPE1 (lit "TPE1") _ _ eq_refl eq_refl).
  rewrite (set_tag_key (lit "lyricist") TEXT (lit "TEXT") _ _ eq_refl eq_refl).
  rewrite (set_tag_key (lit "composer") TCOM (lit "TCOM") _ _ eq_refl eq_refl).
  rewrite (set_tag_key (lit "copyright") TCOP (lit "TCOP") _ _ eq_refl eq_refl).
  rewrite (set_tag_key (lit "comment") COMM (lit "COMM::eng") _ _ eq_refl eq_refl).
  cbn [self tags disk file_path].
  eexists. split; [reflexivity|]. cbn [self tags disk file_path].
  do 2 (split; [done|]).
  assert (∀ a b : str, bool_decide (a = b) = false → a ≠ b) as Hne
    by (intros a b; apply bool_decide_eq_false_1).
  split; [|split; [|split]].
  - repeat (apply Forall_cons; split;
      [ cbn beta; erewrite get_tag_key by reflexivity; cbn [fst self tags];
        rewrite !lookup_cond;
        repeat (rewrite decide_False by (by apply Hne));
        rewrite decide_True by reflexivity;
        by rewrite read_cond |]).
    apply Forall_nil_2.
  - erewrite get_tag_key by reflexivity. cbn [fst self tags].
    rewrite !lookup_cond.
    repeat (rewrite decide_False by (by apply Hne)).
    rewrite decide_True by reflexivity.
    rewrite posted_copyright_shown. cbn [from_option]. by rewrite frame_str_stored.
  - erewrite get_tag_key by reflexivity. cbn [fst self tags].
    rewrite !lookup_cond. rewrite decide_True by reflexivity.
    change (truthy (strip web_comment)) with true. cbn [from_option].
    by rewrite frame_str_stored.
  - intros k Hk. rewrite !lookup_cond.
    repeat (rewrite decide_False;
            [|intros <-; apply Hk; apply (bool_decide_unpack _); reflexivity]).
    done.
Qed.

(** The whole of a POST on a session whose upload is on disk. *)
Lemma edit_tags_post_run uf sid fp form st f :
  session st !! sid = Some fp →
  files st !! fp = Some f →
  has_mp3_extension fp = true →
  ∃ w, update_tags form {| self := {| file_path := fp; tags := frames_of f |};
                           disk := files st |} = (inr tt, w) ∧
       file_path (self w) = fp ∧ disk w = files st ∧
       filename_of w = posted_filename form ∧
       edit_tags uf sid POST form st =
         let p := posted_path uf form in
         if bool_decide (fp = p)
         then (RedirectSelf,
               {| files := files st; session := session st;
                  flashed := flashed st ++
                    [FlashError (lit "Error creating file: ") SameFileError] |})
         else (SendFile p (PosixPath.basename p),
               {| files := delete fp (disk (with_new_file w p f));
                  session := delete sid (session st);
                  flashed := flashed st ++
                    [FlashSuccess (lit "File successfully created and downloaded! Upload another file to continue.")] |}).
Proof.
  intros Hs Hf Hext.
  destruct (update_tags_run form {| self := {| file_path := fp; tags := frames_of f |};
                                    disk := files st |})
    as (w & Hup & Hpath & Hdisk & Hfields & _ & _ & _).
  cbn [self disk file_path] in Hpath, Hdisk.
  assert (filename_of w = posted_filename form) as Hname.
  { apply Forall_cons in Hfields as [Ht _]. apply get_title_inv in Ht.
    unfold filename_of, posted_filename. rewrite Ht.
    destruct (form_get form (lit "title")) as [|c tf]; [done|].
    by destruct (truthy (strip (c :: tf))). }
  exists w. do 4 (split; [done|]).
  unfold edit_tags. rewrite Hs, (init_existing (files st) fp f Hf Hext).
  fold (frames_of f). rewrite Hup.
  rewrite app_save_as_new_file_run. cbn zeta.
  rewrite Hname, Hpath, Hdisk, Hf. fold (posted_path uf form).
  case_bool_decide; [by rewrite Hdisk|done].
Qed.



(** X18: when the file a POST would write is the upload itself, the
    view flashes the error and redirects to the same page; the disk and
    the session are as they were, the upload included. *)
Theorem edit_tags_post_same_file
    (uf sid fp : str) (form : gmap str str) (st : State) (f : File) :
  session st !! sid = Some fp →
  files st !! fp = Some f →
  has_mp3_extension fp = true →
  fp = posted_path uf form →
  edit_tags uf sid POST form st
  = (RedirectSelf,
     {| files := files st; session := session st;
        flashed := flashed st ++
          [FlashError (lit "Error creating file: ") SameFileError] |}).
Proof.
  intros Hs Hf Hext Heq.
  destruct (edit_tags_post_run uf sid fp form st f Hs Hf Hext)
    as (w & _ & _ & _ & _ & Hrun).
  cbn zeta in Hrun. by rewrite bool_decide_eq_true_2 in Hrun.
Qed.

Lemma edit_tags_post_same_file_witness :
  let fp := lit "/tmp/up/Untitled" ++ name_suffix in
  let st := {| files := {[ fp := {| audio := [1]; id3 := NoHeader |} ]};
               session := {[ lit "abc" := fp ]}; flashed := [] |} in
  edit_tags (lit "/tmp/up") (lit "abc") POST ∅ st
  = (RedirectSelf,
     {| files := files st; session := session st;
        flashed := flashed st ++
          [FlashError (lit "Error creating file: ") SameFileError] |}).
Proof.
  intros fp st.
  apply (edit_tags_post_same_file (lit "/tmp/up") (lit "abc") fp ∅ st
           {| audio := [1]; id3 := NoHeader |}).
  - reflexivity.
  - reflexivity.
  - reflexivity.
  - vm_compute. reflexivity.
Defined.

Lemma update_tags_ignores_comment form v :
  update_tags (<[lit "comment" := v]> form) = update_tags form.
Proof.
  unfold update_tags, form_get.
  by rewrite !lookup_insert_ne by lit_ne.
Qed.

(** X19: what is typed in the comment field of the form changes
    nothing: the view does the same and leaves the same state whatever
    that field holds. *)
Theorem edit_tags_ignores_comment
    (uf sid : str) (meth : method) (form : gmap str str) (v : str) (st : State) :
  edit_tags uf sid meth (<[lit "comment" := v]> form) st
  = edit_tags uf sid meth form st.
Proof.
  unfold edit_tags. by rewrite update_tags_ignores_comment.
Qed.

(** X20: the view answers with a redirect to the upload page and a
    flashed message, for a GET as for a POST, when the session id is
    unknown, when the upload is no longer on disk, and when its path does
    not end in [.mp3]; files and session are left as they were. *)
Theorem edit_tags_load_errors
    (uf sid : str) (meth : method) (form : gmap str str) (st : State) :
  let flash m := {| files := files st; session := session st;
                    flashed := flashed st ++ [Flash m] |} in
  (session st !! sid = None →
     edit_tags uf sid meth form st
     = (RedirectIndex, flash (lit "Session expired. Please upload the file again."))) ∧
  (∀ fp, session st !! sid = Some fp → files st !! fp = None →
     edit_tags uf sid meth form st
     = (RedirectIndex,
        flash (lit "Error loading file: " ++ lit "File not found: " ++ fp))) ∧
  (∀ fp, session st !! sid = Some fp → is_Some (files st !! fp) →
     has_mp3_extension fp = false →
     edit_tags uf sid meth form st
     = (RedirectIndex,
        flash (lit "Error loading file: " ++ lit "File must be an MP3 file"))).
Proof.
  intros flash. split; [|split].
  - intros Hs. unfold edit_tags. by rewrite Hs.
  - intros fp Hs Hn. unfold edit_tags, __init__.
    by rewrite Hs, (proj2 (exists_false (files st) fp) Hn).
  - intros fp Hs Hf Hext. unfold edit_tags, __init__.
    by rewrite Hs, (proj2 (exists_true (files st) fp) Hf), endswith_lower_mp3, Hext.
Qed.

Lemma edit_tags_load_errors_witness :
  edit_tags (lit "/tmp/up") (lit "zzz") GET ∅ sample_state
  = (RedirectIndex,
     {| files := files sample_state; session := session sample_state;
        flashed := flashed sample_state ++
          [Flash (lit "Session expired. Please upload the file again.")] |}).
Proof.
  apply (edit_tags_load_errors (lit "/tmp/up") (lit "zzz") GET ∅ sample_state).
  reflexivity.
Defined.

(** X21: a GET on a live session whose upload is on disk renders the
    edit page with the upload's base name and with the six tags as an
    object built from the upload reads them, and changes nothing: not the
    disk, not the session, not the flashed messages. *)
Theorem edit_tags_get_renders
    (uf sid fp : str) (form : gmap str str) (st : State) (f : File) :
  session st !! sid = Some fp →
  files st !! fp = Some f →
  has_mp3_extension fp = true →
  ∃ current_tags,
    edit_tags uf sid GET form st
    = (Render (lit "edit.html") current_tags (PosixPath.basename fp), st) ∧
    current_tags.*1 = tag_names ∧
    Forall (λ name,
              ∃ key, dict_get get_tag_map name = Some key ∧
                     dict_get current_tags name
                     = Some (from_option frame_str [] (frames_of f !! key)))
      tag_names.
Proof.
  intros Hs Hf Hext. unfold edit_tags.
  rewrite Hs, (init_existing (files st) fp f Hf Hext). fold (frames_of f).
  unfold get_all_tags, mbind, M_bind, bind.
  rewrite (get_tag_key (lit "title") (lit "TIT2")) by reflexivity.
  rewrite (get_tag_key (lit "artist") (lit "TPE1")) by reflexivity.
  rewrite (get_tag_key (lit "lyricist") (lit "TEXT")) by reflexivity.
  rewrite (get_tag_key (lit "composer") (lit "TCOM")) by reflexivity.
  rewrite (get_tag_key (lit "copyright") (lit "TCOP")) by reflexivity.
  rewrite (get_tag_key (lit "comment") (lit "COMM::eng")) by reflexivity.
  cbn [self tags]. eexists. split; [reflexivity|]. split; [reflexivity|].
  repeat (apply Forall_cons; split; [eexists; split; reflexivity|]).
  apply Forall_nil_2.
Qed.

Lemma edit_tags_get_renders_witness :
  ∃ current_tags,
    edit_tags (lit "/tmp/up") (lit "abc") GET ∅ sample_state
    = (Render (lit "edit.html") current_tags
         (PosixPath.basename (lit "/tmp/up/in.mp3")), sample_state) ∧
    current_tags.*1 = tag_names ∧
    Forall (λ name,
              ∃ key, dict_get get_tag_map name = Some key ∧
                     dict_get current_tags name
                     = Some (from_option frame_str []
                               (frames_of {| audio := [0xFF; 0xFB]; id3 := NoHeader |}
                                  !! key)))
      tag_names.
Proof.
  apply (edit_tags_get_renders (lit "/tmp/up") (lit "abc") (lit "/tmp/up/in.mp3")
           ∅ sample_state {| audio := [0xFF; 0xFB]; id3 := NoHeader |});
    reflexivity.
Defined.

End WebProofs.
